(** * A shallow embedding of the smsgate message lifecycle

    The core of the gateway is modelled after its Python sources, in five
    modules:
    - [SMS]: the message entity of [src/server/sms.py] with multi-part
      reassembly and its RPC serialization [to_dict];
    - [Codec]: the codecs the server ([base64.b64encode] over the latin-1
      bytes) and the client ([SMSGateRPCClient._decode_text]) apply to the
      [text] field;
    - [Database]: the event store and the modem state table of
      [src/server/database.py], one SQL statement per operation;
    - [RpcClient]: the blocking delivery-confirmation loop of
      [SMSGateRPCClient.send_sms] and the decoding of received messages;
    - [Cli]: the phone-number prompt of the interactive client.

    A Python [str] is a sequence of code points, modelled as [list Z]; a
    Python [bytes] value is a list of integers in [0, 256). Exceptions are
    the [Raise] outcome of [result]. *)

From Stdlib Require Import ZArith Lia.
From stdpp Require Import base gmap list strings sorting.

Open Scope Z_scope.

(** Python exceptions that the modelled code can raise. *)
Inductive exc :=
| ValueError
| KeyError
| UnicodeEncodeError
| UnicodeDecodeError
| BinasciiError
| SqliteOperationalError.

(** Outcome of a Python call: a value or a raised exception. *)
Inductive result (A : Type) :=
| Ok (a : A)
| Raise (e : exc).
Arguments Ok {A} a.
Arguments Raise {A} e.

(** A Python [str]: its code points. *)
Abbreviation pystr := (list Z).

(** The code points of an ASCII string literal. *)
Definition pystr_of (s : string) : pystr :=
  map (fun b => Z.of_N (Byte.to_N b)) (String.list_byte_of_string s).

(** [range(a, a + n)] *)
Fixpoint zrange (a : Z) (n : nat) : list Z :=
  match n with
  | O => []
  | S n' => a :: zrange (a + 1) n'
  end.

(** [r >>= k] for [result]: the exception propagates. *)
Definition result_bind {A B} (r : result A) (k : A -> result B) : result B :=
  match r with
  | Ok a => k a
  | Raise e => Raise e
  end.

(** ** Codecs of the [text] field *)
Module Codec.

(** [str.encode('latin1')]: code points up to 255 become one byte each. *)
Definition encode_latin1 (s : pystr) : result (list Z) :=
  if forallb (fun c => (0 <=? c) && (c <? 256)) s then Ok s
  else Raise UnicodeEncodeError.

(** [str.encode('ascii')] *)
Definition encode_ascii (s : pystr) : result (list Z) :=
  if forallb (fun c => (0 <=? c) && (c <? 128)) s then Ok s
  else Raise UnicodeEncodeError.

(** [bytes.decode('ascii')]: a byte of 128 or more is an error. *)
Definition decode_ascii (bs : list Z) : result pystr :=
  if forallb (fun b => b <? 128) bs then Ok bs
  else Raise UnicodeDecodeError.

(** [table_b2a_base64] of CPython's [binascii]. *)
Definition b2a_char (x : Z) : Z :=
  if x <? 26 then 65 + x
  else if x <? 52 then 97 + (x - 26)
  else if x <? 62 then 48 + (x - 52)
  else if x =? 62 then 43 else 47.

(** [table_a2b_base64]: 255 marks a byte outside the alphabet. *)
Definition a2b_char (c : Z) : Z :=
  if (65 <=? c) && (c <=? 90) then c - 65
  else if (97 <=? c) && (c <=? 122) then c - 97 + 26
  else if (48 <=? c) && (c <=? 57) then c - 48 + 52
  else if c =? 43 then 62
  else if c =? 47 then 63
  else 255.

(** [binascii.b2a_base64(s, newline=False)], which [base64.b64encode]
    calls: each 3-byte group gives four characters, a short last group is
    padded with [=] (code 61). *)
Fixpoint b2a_base64 (bs : list Z) : list Z :=
  match bs with
  | b1 :: b2 :: b3 :: rest =>
      b2a_char (Z.shiftr b1 2)
      :: b2a_char (Z.lor (Z.shiftl (Z.land b1 3) 4) (Z.shiftr b2 4))
      :: b2a_char (Z.lor (Z.shiftl (Z.land b2 15) 2) (Z.shiftr b3 6))
      :: b2a_char (Z.land b3 63)
      :: b2a_base64 rest
  | [b1; b2] =>
      [b2a_char (Z.shiftr b1 2);
       b2a_char (Z.lor (Z.shiftl (Z.land b1 3) 4) (Z.shiftr b2 4));
       b2a_char (Z.shiftl (Z.land b2 15) 2); 61]
  | [b1] =>
      [b2a_char (Z.shiftr b1 2); b2a_char (Z.shiftl (Z.land b1 3) 4); 61; 61]
  | [] => []
  end.

(** The decoding loop of [binascii.a2b_base64(s, strict_mode=False)],
    which [base64.b64decode] calls: [quad_pos], [leftchar] and [pads] are
    the C locals, [acc] the bytes written so far (reversed). Bytes outside
    the alphabet are skipped; a pad that completes a quad ends the input;
    an unfinished quad at the end is an error. *)
Fixpoint a2b_loop (quad_pos leftchar pads : Z) (acc : list Z) (input : list Z)
    : result (list Z) :=
  match input with
  | [] => if quad_pos =? 0 then Ok (rev acc) else Raise BinasciiError
  | c :: rest =>
      if c =? 61 then
        if quad_pos <? 2 then a2b_loop quad_pos leftchar pads acc rest
        else if 4 <=? quad_pos + (pads + 1) then Ok (rev acc)
        else a2b_loop quad_pos leftchar (pads + 1) acc rest
      else
        let v := a2b_char c in
        if 64 <=? v then a2b_loop quad_pos leftchar pads acc rest
        else if quad_pos =? 0 then a2b_loop 1 v 0 acc rest
        else if quad_pos =? 1 then
          a2b_loop 2 (Z.land v 15) 0
            (Z.land (Z.lor (Z.shiftl leftchar 2) (Z.shiftr v 4)) 255 :: acc) rest
        else if quad_pos =? 2 then
          a2b_loop 3 (Z.land v 3) 0
            (Z.land (Z.lor (Z.shiftl leftchar 4) (Z.shiftr v 2)) 255 :: acc) rest
        else
          a2b_loop 0 0 0
            (Z.land (Z.lor (Z.shiftl leftchar 6) v) 255 :: acc) rest
  end.

Definition a2b_base64 (bs : list Z) : result (list Z) := a2b_loop 0 0 0 [] bs.

(** Server side of [SMS.to_dict]:
    [base64.b64encode(text.encode('latin1')).decode('ascii')]. *)
Definition server_encode_text (t : pystr) : result pystr :=
  result_bind (encode_latin1 t) (fun bs => decode_ascii (b2a_base64 bs)).

(** [SMSGateRPCClient._decode_text]:
    [base64.b64decode(text.encode('ascii')).decode("ascii")]. *)
Definition _decode_text (t : pystr) : result pystr :=
  result_bind (encode_ascii t) (fun bs =>
  result_bind (a2b_base64 bs) decode_ascii).

End Codec.

(** ** The message entity ([class SMS]) *)
Module SMS.

(** The attributes [SMS.__init__] sets. [receiving_modem] is kept as the
    modem identifier, the only thing [to_dict] reads from it. *)
Record sms := mkSMS {
  sms_id : string;
  recipient : string;
  text : pystr;
  timestamp : Z;
  created_timestamp : Z;
  sender : option string;
  receiving_modem : option string;
  flash : bool;
  message_ref : option Z;
  total_parts : Z;
  part_number : option Z;
  parts : gmap Z pystr
}.

(** [SMS.__init__]; [fresh_uuid] is the value [str(uuid.uuid4())] returns
    and [now] the value of [datetime.datetime.now()]. *)
Definition init (sms_id0 : option string) (fresh_uuid : string)
    (recipient0 : string) (text0 : pystr) (timestamp0 : option Z) (now : Z)
    (sender0 : option string) (receiving_modem0 : option string)
    (flash0 : bool) (message_ref0 : option Z) (total_parts0 : option Z)
    (part_number0 : option Z) : sms :=
  {| sms_id := match sms_id0 with
               | Some s => if String.eqb s "" then fresh_uuid else s
               | None => fresh_uuid
               end;
     recipient := recipient0;
     text := text0;
     timestamp := match timestamp0 with Some t => t | None => now end;
     created_timestamp := now;
     sender := sender0;
     receiving_modem := receiving_modem0;
     flash := flash0;
     message_ref := message_ref0;
     total_parts := match total_parts0 with Some n => n | None => 1 end;
     part_number := part_number0;
     parts := ∅ |}.

(** [len(self.parts)] *)
Definition nparts (m : sms) : Z := Z.of_nat (size (parts m)).

(** [SMS.is_multipart] ([total_parts] is never [None] after [__init__]). *)
Definition is_multipart (m : sms) : bool :=
  (1 <? nparts m) || (1 <? total_parts m).

(** [SMS.is_part_complete] *)
Definition is_part_complete (m : sms) : bool :=
  if negb (is_multipart m) then true
  else nparts m =? total_parts m.

(** [''.join(self.parts[i] for i in range(1, self.total_parts + 1))]:
    [None] is the [KeyError] of a missing index. *)
Definition join_parts (m : sms) : option pystr :=
  mjoin <$> mapM (fun i => parts m !! i)
                 (zrange 1 (Z.to_nat (total_parts m))).

(** [SMS.get_concatenated_text] *)
Definition get_concatenated_text (m : sms) : pystr :=
  if negb (is_multipart m) then text m
  else if negb (is_part_complete m) then text m
  else match join_parts m with
       | Some s => s
       | None => text m
       end.

(** Attribute assignments [self.total_parts = n], [self.parts = p] and
    [self.text = t]. *)
Definition set_total_parts (m : sms) (n : Z) : sms :=
  {| sms_id := sms_id m; recipient := recipient m; text := text m;
     timestamp := timestamp m; created_timestamp := created_timestamp m;
     sender := sender m; receiving_modem := receiving_modem m;
     flash := flash m; message_ref := message_ref m; total_parts := n;
     part_number := part_number m; parts := parts m |}.

Definition set_parts (m : sms) (p : gmap Z pystr) : sms :=
  {| sms_id := sms_id m; recipient := recipient m; text := text m;
     timestamp := timestamp m; created_timestamp := created_timestamp m;
     sender := sender m; receiving_modem := receiving_modem m;
     flash := flash m; message_ref := message_ref m;
     total_parts := total_parts m; part_number := part_number m;
     parts := p |}.

Definition set_text (m : sms) (t : pystr) : sms :=
  {| sms_id := sms_id m; recipient := recipient m; text := t;
     timestamp := timestamp m; created_timestamp := created_timestamp m;
     sender := sender m; receiving_modem := receiving_modem m;
     flash := flash m; message_ref := message_ref m;
     total_parts := total_parts m; part_number := part_number m;
     parts := parts m |}.

(** [SMS.add_part], threading the mutated object: the [ValueError] is
    raised before any attribute is written. *)
Definition add_part (m : sms) (part_number0 : Z) (text0 : pystr)
    : result unit * sms :=
  if part_number0 <? 1 then (Raise ValueError, m)
  else
    let m1 := if total_parts m <? part_number0
              then set_total_parts m part_number0 else m in
    let m2 := set_parts m1 (<[part_number0 := text0]> (parts m1)) in
    let m3 := if part_number0 =? 1 then set_text m2 text0 else m2 in
    (Ok tt, m3).

(** A sequence of [add_part] calls on one object; an exception stops the
    sequence. *)
Fixpoint add_parts (m : sms) (ps : list (Z * pystr)) : result unit * sms :=
  match ps with
  | [] => (Ok tt, m)
  | (i, t) :: ps' =>
      match add_part m i t with
      | (Ok _, m') => add_parts m' ps'
      | (Raise e, m') => (Raise e, m')
      end
  end.

(** The dictionary [SMS.to_dict] returns. *)
Record sms_dict := mkSMSDict {
  d_id : string;
  d_recipient : string;
  d_text : pystr;
  d_sender : string;
  d_timestamp : Z;
  d_flash : bool;
  d_is_multipart : bool;
  d_total_parts : Z;
  d_received_parts : Z;
  d_modem : option string
}.

(** [SMS.to_dict]; the timestamp's [isoformat()] string is kept as the
    timestamp itself. *)
Definition to_dict (m : sms) (include_modem : bool) : result sms_dict :=
  let t := if is_multipart m then get_concatenated_text m else text m in
  result_bind (Codec.server_encode_text t) (fun text_encoded =>
  Ok {| d_id := sms_id m;
        d_recipient := recipient m;
        d_text := text_encoded;
        d_sender := match sender m with Some s => s | None => "" end;
        d_timestamp := timestamp m;
        d_flash := flash m;
        d_is_multipart := is_multipart m;
        d_total_parts := total_parts m;
        d_received_parts := if is_multipart m then nparts m else 1;
        d_modem := if include_modem then receiving_modem m else None |}).

End SMS.

(** ** The storage layer ([class Database]) *)
Module Database.

Inductive EventType := INCOMING_SMS | INCOMING_CALL | OUTGOING_SMS.
Inductive EventStatus := PENDING | PROCESSED | FAILED | ERROR.

(** [EventType.value], the text stored in the [type] column. *)
Definition event_type_value (t : EventType) : string :=
  match t with
  | INCOMING_SMS => "incoming_sms"
  | INCOMING_CALL => "incoming_call"
  | OUTGOING_SMS => "outgoing_sms"
  end.

(** [EventStatus.value], the text stored in the [status] column. *)
Definition event_status_value (s : EventStatus) : string :=
  match s with
  | PENDING => "pending"
  | PROCESSED => "processed"
  | FAILED => "failed"
  | ERROR => "error"
  end.

(** Structured event bodies ([Dict[str, Any]] of JSON-able values). *)
Inductive json :=
| JNull
| JBool (b : bool)
| JInt (z : Z)
| JStr (s : string)
| JList (l : list json)
| JObject (kv : list (string * json)).

(** The [body JSON] column: the document [json.dumps] wrote. The JSON
    text syntax itself is not modelled, so [json.loads] of what
    [json.dumps] wrote gives the document back. *)
Inductive json_text := JsonText (doc : json).
Definition json_dumps (j : json) : json_text := JsonText j.
Definition json_loads (t : json_text) : json := match t with JsonText j => j end.

(** A row of the [events] table. Datetimes are modelled by their order,
    as integers. *)
Record event_row := mkEventRow {
  ev_id : Z;
  ev_type : string;
  ev_status : string;
  ev_modem_id : string;
  ev_timestamp : Z;
  ev_body : json_text;
  ev_error : option string;
  ev_created_at : Z;
  ev_updated_at : Z
}.

(** The columns of [modem_state] that [update_modem_state] callers name. *)
Inductive field :=
| balance | currency | network | signal_strength | last_balance_check
| last_network_check | last_signal_check | is_online | last_online.

Global Instance field_eq_dec : EqDecision field.
Proof. solve_decision. Defined.

(** SQLite values. *)
Inductive sqlvalue :=
| SqlNull
| SqlInt (z : Z)
| SqlReal (num : Z) (den : positive)
| SqlText (s : string).

(** A row of the [modem_state] table (its key [modem_id] is the key of
    the map holding the rows). *)
Record modem_row := mkModemRow {
  ms_balance : sqlvalue;
  ms_currency : sqlvalue;
  ms_network : sqlvalue;
  ms_signal_strength : sqlvalue;
  ms_last_balance_check : sqlvalue;
  ms_last_network_check : sqlvalue;
  ms_last_signal_check : sqlvalue;
  ms_is_online : sqlvalue;
  ms_last_online : sqlvalue;
  ms_created_at : Z;
  ms_updated_at : Z
}.

Definition get_field (r : modem_row) (f : field) : sqlvalue :=
  match f with
  | balance => ms_balance r
  | currency => ms_currency r
  | network => ms_network r
  | signal_strength => ms_signal_strength r
  | last_balance_check => ms_last_balance_check r
  | last_network_check => ms_last_network_check r
  | last_signal_check => ms_last_signal_check r
  | is_online => ms_is_online r
  | last_online => ms_last_online r
  end.

(** [SET f = v] on one row. *)
Definition set_field (r : modem_row) (f : field) (v : sqlvalue) : modem_row :=
  let g f' := if decide (f' = f) then v else get_field r f' in
  {| ms_balance := g balance;
     ms_currency := g currency;
     ms_network := g network;
     ms_signal_strength := g signal_strength;
     ms_last_balance_check := g last_balance_check;
     ms_last_network_check := g last_network_check;
     ms_last_signal_check := g last_signal_check;
     ms_is_online := g is_online;
     ms_last_online := g last_online;
     ms_created_at := ms_created_at r;
     ms_updated_at := ms_updated_at r |}.

(** The assignments of a statement, left to right. *)
Fixpoint set_fields (r : modem_row) (kw : list (field * sqlvalue)) : modem_row :=
  match kw with
  | [] => r
  | (f, v) :: kw' => set_fields (set_field r f v) kw'
  end.

(** A row as [INSERT] creates it before the named columns are set: the
    column defaults ([is_online BOOLEAN DEFAULT 0], [created_at] and
    [updated_at] [DEFAULT CURRENT_TIMESTAMP], [NULL] elsewhere). *)
Definition default_row (now : Z) : modem_row :=
  {| ms_balance := SqlNull; ms_currency := SqlNull; ms_network := SqlNull;
     ms_signal_strength := SqlNull; ms_last_balance_check := SqlNull;
     ms_last_network_check := SqlNull; ms_last_signal_check := SqlNull;
     ms_is_online := SqlInt 0; ms_last_online := SqlNull;
     ms_created_at := now; ms_updated_at := now |}.

(** The database file: the [events] rows in rowid order, the next
    AUTOINCREMENT id, and the [modem_state] rows by key. *)
Record db := mkDB {
  events : list event_row;
  next_event_id : Z;
  modem_state : gmap string modem_row
}.

(** [Database.add_event]: one [INSERT]; [now] is [datetime.datetime.now()]
    and also [CURRENT_TIMESTAMP]; returns [cursor.lastrowid]. *)
Definition add_event (d : db) (now : Z) (event_type : EventType)
    (modem_id : string) (body : json) (status : EventStatus)
    (error : option string) : Z * db :=
  let row := {| ev_id := next_event_id d;
                ev_type := event_type_value event_type;
                ev_status := event_status_value status;
                ev_modem_id := modem_id;
                ev_timestamp := now;
                ev_body := json_dumps body;
                ev_error := error;
                ev_created_at := now;
                ev_updated_at := now |} in
  (next_event_id d,
   {| events := events d ++ [row];
      next_event_id := next_event_id d + 1;
      modem_state := modem_state d |}).

(** [UPDATE events SET status = ?, error = ?, updated_at = CURRENT_TIMESTAMP
    WHERE id = ?] *)
Definition update_event_row (now : Z) (event_id : Z) (status : EventStatus)
    (error : option string) (r : event_row) : event_row :=
  if ev_id r =? event_id then
    {| ev_id := ev_id r;
       ev_type := ev_type r;
       ev_status := event_status_value status;
       ev_modem_id := ev_modem_id r;
       ev_timestamp := ev_timestamp r;
       ev_body := ev_body r;
       ev_error := error;
       ev_created_at := ev_created_at r;
       ev_updated_at := now |}
  else r.

(** [Database.update_event_status]; the caller who omits [error] passes
    [None]. *)
Definition update_event_status (d : db) (now : Z) (event_id : Z)
    (status : EventStatus) (error : option string) : db :=
  {| events := map (update_event_row now event_id status error) (events d);
     next_event_id := next_event_id d;
     modem_state := modem_state d |}.

(** An event as [get_events] returns it: the row with [body] passed
    through [json.loads]. *)
Record event_dict := mkEventDict {
  e_id : Z;
  e_type : string;
  e_status : string;
  e_modem_id : string;
  e_timestamp : Z;
  e_body : json;
  e_error : option string;
  e_created_at : Z;
  e_updated_at : Z
}.

Definition event_to_dict (r : event_row) : event_dict :=
  {| e_id := ev_id r; e_type := ev_type r; e_status := ev_status r;
     e_modem_id := ev_modem_id r; e_timestamp := ev_timestamp r;
     e_body := json_loads (ev_body r); e_error := ev_error r;
     e_created_at := ev_created_at r; e_updated_at := ev_updated_at r |}.

(** The [WHERE] clause [get_events] builds: a filter is added only when
    the argument is truthy ([if modem_id:]; enum members are truthy). *)
Definition event_matches (modem_id : option string)
    (event_type : option EventType) (status : option EventStatus)
    (r : event_row) : bool :=
  match modem_id with
  | Some m => if String.eqb m "" then true else String.eqb (ev_modem_id r) m
  | None => true
  end &&
  match event_type with
  | Some t => String.eqb (ev_type r) (event_type_value t)
  | None => true
  end &&
  match status with
  | Some s => String.eqb (ev_status r) (event_status_value s)
  | None => true
  end.

(** [ORDER BY timestamp DESC]: an insertion sort on the timestamp; SQL
    leaves the order of rows with equal timestamps open, this sort puts a
    later-scanned row first. *)
Fixpoint insert_desc (r : event_row) (l : list event_row) : list event_row :=
  match l with
  | [] => [r]
  | r' :: l' =>
      if ev_timestamp r' <? ev_timestamp r then r :: l
      else r' :: insert_desc r l'
  end.

Fixpoint sort_desc (l : list event_row) : list event_row :=
  match l with
  | [] => []
  | r :: l' => insert_desc r (sort_desc l')
  end.

(** [LIMIT ?]: SQLite reads a negative limit as no limit. *)
Definition sql_limit {A} (limit : Z) (l : list A) : list A :=
  if limit <? 0 then l else take (Z.to_nat limit) l.

(** [Database.get_events] *)
Definition get_events (d : db) (modem_id : option string)
    (event_type : option EventType) (status : option EventStatus)
    (limit : Z) : list event_dict :=
  map event_to_dict
    (sql_limit limit
       (sort_desc (filter (fun r => event_matches modem_id event_type status r)
                          (events d)))).

(** [Database.update_modem_state]: a [SELECT] for the key, then an
    [INSERT] of the named columns or an [UPDATE] of them that also sets
    [updated_at]. With no named column the [UPDATE] text reads
    [SET , updated_at = ...], a syntax error raised before anything is
    written. The named columns are the keyword arguments, which are
    distinct. *)
Definition update_modem_state (d : db) (now : Z) (modem_id : string)
    (kw : list (field * sqlvalue)) : result unit * db :=
  let upd (rows : gmap string modem_row) : db :=
    {| events := events d; next_event_id := next_event_id d;
       modem_state := rows |} in
  match modem_state d !! modem_id with
  | None =>
      (Ok tt, upd (<[modem_id := set_fields (default_row now) kw]>
                     (modem_state d)))
  | Some r =>
      match kw with
      | [] => (Raise SqliteOperationalError, d)
      | _ :: _ =>
          let r' := set_fields r kw in
          let r'' := {| ms_balance := ms_balance r';
                        ms_currency := ms_currency r';
                        ms_network := ms_network r';
                        ms_signal_strength := ms_signal_strength r';
                        ms_last_balance_check := ms_last_balance_check r';
                        ms_last_network_check := ms_last_network_check r';
                        ms_last_signal_check := ms_last_signal_check r';
                        ms_is_online := ms_is_online r';
                        ms_last_online := ms_last_online r';
                        ms_created_at := ms_created_at r';
                        ms_updated_at := now |} in
          (Ok tt, upd (<[modem_id := r'']> (modem_state d)))
      end
  end.

(** The database [Database.__init__] creates on a new file: empty tables. *)
Definition init_db : db := {| events := []; next_event_id := 1; modem_state := ∅ |}.

(** [Database.get_modem_state] *)
Definition get_modem_state (d : db) (modem_id : string) : option modem_row :=
  modem_state d !! modem_id.

(** The calls the server issues on one database, each with the clock
    value it reads. *)
Inductive db_op :=
| OpAddEvent (now : Z) (event_type : EventType) (modem_id : string) (body : json)
    (status : EventStatus) (error : option string)
| OpUpdateEventStatus (now event_id : Z) (status : EventStatus) (error : option string)
| OpUpdateModemState (now : Z) (modem_id : string) (kw : list (field * sqlvalue)).

(** One call; the file after a raising [update_modem_state] is the file
    before it, since nothing was written. *)
Definition run_db_op (d : db) (op : db_op) : db :=
  match op with
  | OpAddEvent now t m body st err => snd (add_event d now t m body st err)
  | OpUpdateEventStatus now id st err => update_event_status d now id st err
  | OpUpdateModemState now m kw => snd (update_modem_state d now m kw)
  end.

Definition run_db_ops (d : db) (ops : list db_op) : db := foldl run_db_op d ops.

End Database.

(** ** The client's delivery confirmation ([SMSGateRPCClient.send_sms]) *)
Module RpcClient.

(** What the client does, in order: its XML-RPC calls and its sleeps. *)
Inductive action :=
| CallSendSms (api_token sender recipient : string) (text : pystr) (flash : bool)
| CallGetDeliveryStatus (api_token sms_id : string)
| Sleep (seconds : Z).

(** [while not self.client.get_delivery_status(self.api_token, sms_id):
    time.sleep(3)], fed with the successive replies of the server.
    [None]: the replies ran out while the loop was still polling, so the
    call has not returned. *)
Fixpoint wait_for_delivery (api_token sms_id : string) (replies : list bool)
    : option (list action) :=
  match replies with
  | [] => None
  | delivered :: replies' =>
      if negb delivered then
        (fun tr => CallGetDeliveryStatus api_token sms_id :: Sleep 3 :: tr)
          <$> wait_for_delivery api_token sms_id replies'
      else Some [CallGetDeliveryStatus api_token sms_id]
  end.

(** [SMSGateRPCClient.send_sms]: [sms_id] is the reply of the server's
    [send_sms]; returns the id and the actions taken. *)
Definition send_sms (api_token sender recipient : string) (text : pystr)
    (flash wait_for_delivery0 : bool) (sms_id : string) (replies : list bool)
    : option (string * list action) :=
  let first := CallSendSms api_token sender recipient text flash in
  if wait_for_delivery0 then
    (fun tr => (sms_id, first :: tr)) <$> wait_for_delivery api_token sms_id replies
  else Some (sms_id, [first]).

(** The number of [get_delivery_status] calls in a run. *)
Fixpoint count_polls (tr : list action) : nat :=
  match tr with
  | [] => O
  | CallGetDeliveryStatus _ _ :: tr' => S (count_polls tr')
  | _ :: tr' => count_polls tr'
  end.

(** The number of sleeps in a run. *)
Fixpoint count_sleeps (tr : list action) : nat :=
  match tr with
  | [] => O
  | Sleep _ :: tr' => S (count_sleeps tr')
  | _ :: tr' => count_sleeps tr'
  end.

(** [msg['text'] = t] on a message dictionary. *)
Definition set_d_text (d : SMS.sms_dict) (t : pystr) : SMS.sms_dict :=
  {| SMS.d_id := SMS.d_id d; SMS.d_recipient := SMS.d_recipient d;
     SMS.d_text := t; SMS.d_sender := SMS.d_sender d;
     SMS.d_timestamp := SMS.d_timestamp d; SMS.d_flash := SMS.d_flash d;
     SMS.d_is_multipart := SMS.d_is_multipart d;
     SMS.d_total_parts := SMS.d_total_parts d;
     SMS.d_received_parts := SMS.d_received_parts d;
     SMS.d_modem := SMS.d_modem d |}.

(** [for msg in messages: msg['text'] = self._decode_text(msg['text'])]:
    the messages are decoded in order and the first exception leaves the
    loop. *)
Fixpoint decode_texts (messages : list SMS.sms_dict) : result (list SMS.sms_dict) :=
  match messages with
  | [] => Ok []
  | msg :: messages' =>
      result_bind (Codec._decode_text (SMS.d_text msg)) (fun t =>
      result_bind (decode_texts messages') (fun rest =>
      Ok (set_d_text msg t :: rest)))
  end.

(** [SMSGateRPCClient.get_sms] and [SMSGateRPCClient.get_all_sms]:
    [messages] is the server's reply, the list of [SMS.to_dict]
    dictionaries. *)
Definition get_sms (messages : list SMS.sms_dict) : result (list SMS.sms_dict) :=
  decode_texts messages.

Definition get_all_sms (messages : list SMS.sms_dict) : result (list SMS.sms_dict) :=
  decode_texts messages.

(** [SMSGateRPCClient.read_stored_sms]: the server's reply as it is. *)
Definition read_stored_sms (messages : list SMS.sms_dict) : list SMS.sms_dict :=
  messages.

End RpcClient.

(** ** The interactive shell ([src/client/smsgate-client.py]) *)
Module Cli.

(** [input_phone_number]: the loop over the lines [input()] returns;
    [None] when the lines run out while it still asks. *)
Fixpoint input_phone_number (default : string) (inputs : list string) : option string :=
  match inputs with
  | [] => None
  | phone_number_new :: inputs' =>
      if negb (String.eqb default "") && String.eqb phone_number_new "" then Some default
      else if negb (String.eqb phone_number_new "") then Some phone_number_new
      else input_phone_number default inputs'
  end.

End Cli.

(** * Properties *)

(** ** Error and update behaviour of [add_part] *)

(** C5: [add_part] raises [ValueError] exactly when the part number is
    below 1 (so [add_part(0, "x")] fails), it raises nothing else, and on
    raising it leaves the message (text, total_parts, parts and every other
    attribute) unchanged. *)
Theorem add_part_invalid_iff (m : SMS.sms) (part_number : Z) (t : pystr) :
  (fst (SMS.add_part m part_number t) = Raise ValueError <-> part_number < 1) /\
  (forall e, fst (SMS.add_part m part_number t) = Raise e ->
             e = ValueError /\ snd (SMS.add_part m part_number t) = m) /\
  fst (SMS.add_part m 0 (pystr_of "x")) = Raise ValueError.
Proof.
  unfold SMS.add_part.
  destruct (part_number <? 1) eqn:E; simpl.
  - apply Z.ltb_lt in E. repeat split; try lia; congruence.
  - apply Z.ltb_ge in E. repeat split; try lia; discriminate.
Qed.

(** C6: for a part number of at least 1, [add_part] succeeds, raises
    [total_parts] to the part number when the part number exceeds it (and
    leaves it otherwise), stores the text under the part number and
    overwrites [text] exactly when the part number is 1. *)
Theorem add_part_updates (m : SMS.sms) (part_number : Z) (t : pystr) :
  1 <= part_number ->
  let '(r, m') := SMS.add_part m part_number t in
  r = Ok tt /\
  SMS.total_parts m' =
    (if SMS.total_parts m <? part_number then part_number else SMS.total_parts m) /\
  SMS.parts m' = <[part_number := t]> (SMS.parts m) /\
  SMS.text m' = (if part_number =? 1 then t else SMS.text m).
Proof.
  intros H. unfold SMS.add_part.
  destruct (part_number <? 1) eqn:E; [apply Z.ltb_lt in E; lia|].
  destruct (SMS.total_parts m <? part_number) eqn:E1;
    destruct (part_number =? 1) eqn:E2; simpl; rewrite ?E1; auto.
Qed.

Lemma add_part_updates_witness :
  1 <= 2 /\
  let '(r, m') := SMS.add_part
      (SMS.init None "id" "+44123456789" (pystr_of "Bro") None 0 None None
                false None (Some 3) (Some 1)) 2 (pystr_of "wn ") in
  r = Ok tt /\ SMS.total_parts m' = 3 /\
  SMS.parts m' = <[2 := pystr_of "wn "]> ∅ /\ SMS.text m' = pystr_of "Bro".
Proof.
  split; [lia|].
  exact (add_part_updates
      (SMS.init None "id" "+44123456789" (pystr_of "Bro") None 0 None None
                false None (Some 3) (Some 1)) 2 (pystr_of "wn ") ltac:(lia)).
Defined.

(** ** Multipart classification *)

(** C8: a message constructed without [total_parts] is the message
    constructed with [total_parts=1]; it is not multipart and its
    concatenated text is its [text]. Any message whose [total_parts]
    exceeds 1 is multipart, whatever parts it holds. *)
Theorem single_part_default (sms_id0 : option string) (uuid recipient0 : string)
    (text0 : pystr) (timestamp0 : option Z) (now : Z)
    (sender0 receiving_modem0 : option string) (flash0 : bool)
    (message_ref0 part_number0 : option Z) :
  let m := SMS.init sms_id0 uuid recipient0 text0 timestamp0 now sender0
             receiving_modem0 flash0 message_ref0 None part_number0 in
  m = SMS.init sms_id0 uuid recipient0 text0 timestamp0 now sender0
        receiving_modem0 flash0 message_ref0 (Some 1) part_number0 /\
  SMS.is_multipart m = false /\
  SMS.get_concatenated_text m = text0 /\
  (forall m' : SMS.sms, 1 < SMS.total_parts m' -> SMS.is_multipart m' = true).
Proof.
  simpl. repeat split.
  intros m' H. unfold SMS.is_multipart.
  apply orb_true_iff. right. by apply Z.ltb_lt.
Qed.

(** ** Event store *)

(** C10: [update_event_status] with the error omitted rewrites every row
    with the given id to the new status, a [NULL] error (erasing any
    previous error text) and the current [updated_at], and keeps all its
    other columns; rows with other ids are untouched. *)
Theorem update_event_status_clears_error (d : Database.db) (now event_id : Z)
    (status : Database.EventStatus) (i : nat) (r : Database.event_row) :
  Database.events d !! i = Some r ->
  Database.events (Database.update_event_status d now event_id status None) !! i =
  Some (if Database.ev_id r =? event_id then
          {| Database.ev_id := Database.ev_id r;
             Database.ev_type := Database.ev_type r;
             Database.ev_status := Database.event_status_value status;
             Database.ev_modem_id := Database.ev_modem_id r;
             Database.ev_timestamp := Database.ev_timestamp r;
             Database.ev_body := Database.ev_body r;
             Database.ev_error := None;
             Database.ev_created_at := Database.ev_created_at r;
             Database.ev_updated_at := now |}
        else r).
Proof.
  intros H. simpl. rewrite list_lookup_fmap, H. simpl.
  unfold Database.update_event_row. by destruct (Database.ev_id r =? event_id).
Qed.

Lemma update_event_status_clears_error_witness :
  Database.events (snd (Database.add_event Database.init_db 1
      Database.INCOMING_SMS "00" Database.JNull Database.FAILED (Some "timeout"))) !! 0%nat
  = Some (Database.mkEventRow 1 "incoming_sms" "failed" "00" 1
            (Database.JsonText Database.JNull) (Some "timeout") 1 1) /\
  Database.events (Database.update_event_status
      (snd (Database.add_event Database.init_db 1
         Database.INCOMING_SMS "00" Database.JNull Database.FAILED (Some "timeout")))
      2 1 Database.PENDING None) !! 0%nat
  = Some (Database.mkEventRow 1 "incoming_sms" "pending" "00" 1
            (Database.JsonText Database.JNull) None 1 2).
Proof.
  split; [reflexivity|].
  exact (update_event_status_clears_error
    (snd (Database.add_event Database.init_db 1
       Database.INCOMING_SMS "00" Database.JNull Database.FAILED (Some "timeout")))
    2 1 Database.PENDING 0%nat
    (Database.mkEventRow 1 "incoming_sms" "failed" "00" 1
       (Database.JsonText Database.JNull) (Some "timeout") 1 1) eq_refl).
Defined.

(** C2 (as amended): [update_event_status] checks no transition. Every row
    with the given id takes the given status and error, whatever its
    current status, so a [processed] event can be set back to [pending];
    every row with another id is left unchanged. *)
Theorem update_event_status_unconditional (d : Database.db) (now event_id : Z)
    (status : Database.EventStatus) (error : option string) (i : nat)
    (r : Database.event_row) :
  Database.events d !! i = Some r -> Database.ev_id r = event_id ->
  (exists r', Database.events (Database.update_event_status d now event_id status error) !! i
             = Some r' /\
    Database.ev_status r' = Database.event_status_value status /\
    Database.ev_error r' = error /\ Database.ev_id r' = event_id) /\
  (forall (j : nat) (r0 : Database.event_row),
     Database.events d !! j = Some r0 -> Database.ev_id r0 <> event_id ->
     Database.events (Database.update_event_status d now event_id status error) !! j
       = Some r0).
Proof.
  intros H Hid. split.
  - simpl. rewrite list_lookup_fmap, H. simpl.
    unfold Database.update_event_row. rewrite Hid, Z.eqb_refl.
    eexists. split; [reflexivity|]. simpl. auto.
  - intros j r0 Hj Hne. simpl. rewrite list_lookup_fmap, Hj. simpl.
    unfold Database.update_event_row. by rewrite (proj2 (Z.eqb_neq _ _) Hne).
Qed.

(** Two events; the first one, [processed], is set back to [pending] and
    the second one keeps its row. *)
Lemma update_event_status_unconditional_witness :
  Database.events (snd (Database.add_event
      (snd (Database.add_event Database.init_db 1
         Database.INCOMING_SMS "00" Database.JNull Database.PROCESSED None))
      2 Database.OUTGOING_SMS "01" Database.JNull Database.FAILED (Some "x"))) !! 0%nat
  = Some (Database.mkEventRow 1 "incoming_sms" "processed" "00" 1
            (Database.JsonText Database.JNull) None 1 1) /\
  (exists r', Database.events (Database.update_event_status
      (snd (Database.add_event
         (snd (Database.add_event Database.init_db 1
            Database.INCOMING_SMS "00" Database.JNull Database.PROCESSED None))
         2 Database.OUTGOING_SMS "01" Database.JNull Database.FAILED (Some "x")))
      3 1 Database.PENDING None) !! 0%nat = Some r' /\
    Database.ev_status r' = "pending" /\ Database.ev_error r' = None /\
    Database.ev_id r' = 1) /\
  Database.events (Database.update_event_status
      (snd (Database.add_event
         (snd (Database.add_event Database.init_db 1
            Database.INCOMING_SMS "00" Database.JNull Database.PROCESSED None))
         2 Database.OUTGOING_SMS "01" Database.JNull Database.FAILED (Some "x")))
      3 1 Database.PENDING None) !! 1%nat
  = Some (Database.mkEventRow 2 "outgoing_sms" "failed" "01" 2
            (Database.JsonText Database.JNull) (Some "x") 2 2).
Proof.
  split; [reflexivity|].
  destruct (update_event_status_unconditional
    (snd (Database.add_event
       (snd (Database.add_event Database.init_db 1
          Database.INCOMING_SMS "00" Database.JNull Database.PROCESSED None))
       2 Database.OUTGOING_SMS "01" Database.JNull Database.FAILED (Some "x")))
    3 1 Database.PENDING None 0%nat
    (Database.mkEventRow 1 "incoming_sms" "processed" "00" 1
       (Database.JsonText Database.JNull) None 1 1) eq_refl eq_refl) as [H1 H2].
  split; [exact H1|].
  apply (H2 1%nat); [reflexivity|]. simpl. lia.
Defined.

(** C2 fails: an event added as [processed] and then updated to
    [pending] is stored as [pending]. *)
Lemma status_regression_counterexample :
  ~ (forall (d : Database.db) now event_id status error (i : nat) r r',
       Database.events d !! i = Some r ->
       Database.ev_status r = "processed" ->
       Database.events (Database.update_event_status d now event_id status error) !! i
         = Some r' ->
       Database.ev_status r' <> "pending").
Proof.
  intros Hmono.
  apply (Hmono (snd (Database.add_event Database.init_db 1
                  Database.INCOMING_SMS "00" Database.JNull Database.PROCESSED None))
               2 1 Database.PENDING None 0%nat
               (Database.mkEventRow 1 "incoming_sms" "processed" "00" 1
                  (Database.JsonText Database.JNull) None 1 1)
               (Database.mkEventRow 1 "incoming_sms" "pending" "00" 1
                  (Database.JsonText Database.JNull) None 1 2));
    reflexivity.
Qed.

(** ** Delivery confirmation *)

(** The loop's run on [k] negative replies followed by a positive one. *)
Lemma wait_for_delivery_run (api_token sms_id : string) (k : nat) (rest : list bool) :
  RpcClient.wait_for_delivery api_token sms_id (repeat false k ++ true :: rest) =
  Some (concat (repeat [RpcClient.CallGetDeliveryStatus api_token sms_id;
                        RpcClient.Sleep 3] k)
        ++ [RpcClient.CallGetDeliveryStatus api_token sms_id]).
Proof.
  induction k as [|k IH]; simpl; [reflexivity|]. by rewrite IH.
Qed.

Lemma count_polls_app (t1 t2 : list RpcClient.action) :
  RpcClient.count_polls (t1 ++ t2) = (RpcClient.count_polls t1 + RpcClient.count_polls t2)%nat.
Proof. induction t1 as [|[] t1 IH]; simpl; lia. Qed.

Lemma count_sleeps_app (t1 t2 : list RpcClient.action) :
  RpcClient.count_sleeps (t1 ++ t2) = (RpcClient.count_sleeps t1 + RpcClient.count_sleeps t2)%nat.
Proof. induction t1 as [|[] t1 IH]; simpl; lia. Qed.

(** C3 (as amended): with confirmation requested and the server answering
    [get_delivery_status] negatively [k] times and then positively,
    [send_sms] calls [get_delivery_status] [k + 1] times: once right after
    the send, then once after each of [k] sleeps of 3; it then returns the
    id. For [k = 3]: four status calls and three sleeps. *)
Theorem send_sms_polls (api_token sender recipient : string) (text : pystr)
    (flash : bool) (sms_id : string) (k : nat) (rest : list bool) :
  exists tr,
    RpcClient.send_sms api_token sender recipient text flash true sms_id
      (repeat false k ++ true :: rest) = Some (sms_id, tr) /\
    tr = RpcClient.CallSendSms api_token sender recipient text flash
         :: concat (repeat [RpcClient.CallGetDeliveryStatus api_token sms_id;
                            RpcClient.Sleep 3] k)
         ++ [RpcClient.CallGetDeliveryStatus api_token sms_id] /\
    RpcClient.count_polls tr = S k /\ RpcClient.count_sleeps tr = k.
Proof.
  unfold RpcClient.send_sms. rewrite wait_for_delivery_run. simpl.
  eexists. split; [reflexivity|]. split; [reflexivity|]. simpl.
  rewrite count_polls_app, count_sleeps_app.
  induction k as [|k IH]; simpl in *; lia.
Qed.

(** C3 fails: with the replies false, false, false, true the client calls
    [get_delivery_status] four times, not three. *)
Lemma send_sms_three_polls_counterexample :
  RpcClient.send_sms "token" "+4900" "+4411" (pystr_of "hi") false true "id"
    [false; false; false; true] =
  Some ("id", [RpcClient.CallSendSms "token" "+4900" "+4411" (pystr_of "hi") false;
               RpcClient.CallGetDeliveryStatus "token" "id"; RpcClient.Sleep 3;
               RpcClient.CallGetDeliveryStatus "token" "id"; RpcClient.Sleep 3;
               RpcClient.CallGetDeliveryStatus "token" "id"; RpcClient.Sleep 3;
               RpcClient.CallGetDeliveryStatus "token" "id"]) /\
  RpcClient.count_polls
    [RpcClient.CallSendSms "token" "+4900" "+4411" (pystr_of "hi") false;
     RpcClient.CallGetDeliveryStatus "token" "id"; RpcClient.Sleep 3;
     RpcClient.CallGetDeliveryStatus "token" "id"; RpcClient.Sleep 3;
     RpcClient.CallGetDeliveryStatus "token" "id"; RpcClient.Sleep 3;
     RpcClient.CallGetDeliveryStatus "token" "id"] = 4%nat.
Proof. split; reflexivity. Qed.

(** ** Reassembly of a multipart message *)

Lemma zrange_seqZ (a : Z) (n : nat) : zrange a n = seqZ a (Z.of_nat n).
Proof.
  revert a. induction n as [|n IH]; intros a; [reflexivity|].
  rewrite seqZ_cons by lia. simpl. rewrite IH. f_equal. f_equal; lia.
Qed.

Lemma lookup_zrange (a : Z) (n j : nat) :
  (j < n)%nat -> zrange a n !! j = Some (a + Z.of_nat j).
Proof.
  intros Hj. rewrite zrange_seqZ. apply lookup_seqZ_lt. lia.
Qed.

(** One successful [add_part] call. *)
Lemma add_part_ok (m : SMS.sms) (k : Z) (t : pystr) :
  1 <= k ->
  fst (SMS.add_part m k t) = Ok tt /\
  SMS.parts (snd (SMS.add_part m k t)) = <[k := t]> (SMS.parts m) /\
  SMS.total_parts (snd (SMS.add_part m k t)) = Z.max (SMS.total_parts m) k.
Proof.
  intros Hk. unfold SMS.add_part.
  destruct (k <? 1) eqn:E; [apply Z.ltb_lt in E; lia|].
  destruct (SMS.total_parts m <? k) eqn:E1; destruct (k =? 1); simpl;
    (split; [reflexivity|]); split; try reflexivity;
    [apply Z.ltb_lt in E1 | apply Z.ltb_lt in E1 | apply Z.ltb_ge in E1 | apply Z.ltb_ge in E1];
    lia.
Qed.

(** A sequence of valid [add_part] calls. *)
Lemma add_parts_ok (ps : list (Z * pystr)) (m : SMS.sms) :
  Forall (fun p => 1 <= p.1) ps ->
  fst (SMS.add_parts m ps) = Ok tt /\
  SMS.parts (snd (SMS.add_parts m ps)) =
    foldl (fun acc p => <[p.1 := p.2]> acc) (SMS.parts m) ps /\
  SMS.total_parts (snd (SMS.add_parts m ps)) =
    foldl (fun acc p => Z.max acc p.1) (SMS.total_parts m) ps.
Proof.
  revert m. induction ps as [|[k t] ps IH]; intros m Hps; [auto|].
  apply Forall_cons in Hps as [Hk Hps]. simpl in Hk.
  destruct (add_part_ok m k t Hk) as (Hr & Hp & Ht).
  simpl. destruct (SMS.add_part m k t) as [r m'] eqn:E. simpl in *. subst r.
  rewrite <- Hp, <- Ht. by apply IH.
Qed.

Lemma foldl_insert_union (ps : list (Z * pystr)) (m : gmap Z pystr) :
  NoDup ps.*1 ->
  foldl (fun acc p => <[p.1 := p.2]> acc) m ps = list_to_map ps ∪ m.
Proof.
  revert m. induction ps as [|[k t] ps IH]; intros m Hnd; simpl.
  - by rewrite map_empty_union.
  - apply NoDup_cons in Hnd as [Hk Hnd]. rewrite IH by done.
    rewrite <- insert_union_r by (by apply not_elem_of_list_to_map_1).
    by rewrite insert_union_l.
Qed.

Lemma foldl_max_ge (ps : list (Z * pystr)) (a : Z) :
  a <= foldl (fun acc p => Z.max acc p.1) a ps /\
  (forall k, k ∈ ps.*1 -> k <= foldl (fun acc p => Z.max acc p.1) a ps).
Proof.
  revert a. induction ps as [|[k t] ps IH]; intros a; simpl.
  - split; [lia|]. intros k Hk. by apply elem_of_nil in Hk.
  - destruct (IH (Z.max a k)) as [H1 H2]. split; [lia|].
    intros k' Hk'. apply elem_of_cons in Hk' as [->|Hk']; [lia|]. auto.
Qed.

Lemma foldl_max_le (ps : list (Z * pystr)) (a b : Z) :
  a <= b -> (forall k, k ∈ ps.*1 -> k <= b) ->
  foldl (fun acc p => Z.max acc p.1) a ps <= b.
Proof.
  revert a. induction ps as [|[k t] ps IH]; intros a Ha Hk; simpl; [done|].
  apply IH.
  - assert (k <= b) by (apply Hk; simpl; apply elem_of_cons; auto). lia.
  - intros k' Hk'. apply Hk. simpl. apply elem_of_cons. auto.
Qed.

Lemma mapM_lookup_zrange (ts : list pystr) (a : Z) (m : gmap Z pystr) :
  (forall j, (j < length ts)%nat -> m !! (a + Z.of_nat j) = ts !! j) ->
  mapM (fun i => m !! i) (zrange a (length ts)) = Some ts.
Proof.
  revert a. induction ts as [|t ts IH]; intros a Hm; [reflexivity|].
  simpl. pose proof (Hm 0%nat ltac:(simpl; lia)) as H0.
  rewrite Z.add_0_r in H0. rewrite H0. simpl.
  rewrite IH; [reflexivity|].
  intros j Hj. pose proof (Hm (S j) ltac:(simpl; lia)) as HS. simpl in HS.
  rewrite <- HS. f_equal. lia.
Qed.

Lemma mjoin_concat (ts : list pystr) : mjoin ts = concat ts.
Proof. induction ts as [|t ts IH]; simpl; [done|]. by rewrite IH. Qed.

Lemma length_zrange (a : Z) (n : nat) : length (zrange a n) = n.
Proof. rewrite zrange_seqZ, length_seqZ. lia. Qed.

(** C4: starting from a message with no stored part and a declared total
    of at most [n], adding the parts [1..n] with texts [ts] in any order
    succeeds and yields a complete message whose concatenated text is the
    texts joined in part order. *)
Theorem reassembly_order_independent (m0 : SMS.sms) (n : nat)
    (ts : list pystr) (ps : list (Z * pystr)) :
  SMS.parts m0 = ∅ -> SMS.total_parts m0 <= Z.of_nat n -> (1 <= n)%nat ->
  length ts = n -> ps ≡ₚ zip (zrange 1 n) ts ->
  fst (SMS.add_parts m0 ps) = Ok tt /\
  SMS.is_part_complete (snd (SMS.add_parts m0 ps)) = true /\
  SMS.get_concatenated_text (snd (SMS.add_parts m0 ps)) = concat ts.
Proof.
  intros Hp0 Ht0 Hn Hlen Hperm.
  set (l := zip (zrange 1 n) ts).
  assert (Hkeys : l.*1 = zrange 1 n)
    by (apply fst_zip; rewrite length_zrange; lia).
  assert (Hndl : NoDup l.*1)
    by (rewrite Hkeys, zrange_seqZ; apply NoDup_seqZ).
  assert (Hnd : NoDup ps.*1) by (by rewrite Hperm).
  assert (Hrange : forall k, k ∈ ps.*1 -> 1 <= k <= Z.of_nat n).
  { intros k Hk. rewrite Hperm in Hk. fold l in Hk.
    rewrite Hkeys, zrange_seqZ, elem_of_seqZ in Hk. lia. }
  assert (Hge : Forall (fun p => 1 <= p.1) ps).
  { apply Forall_forall. intros p Hp.
    apply (Hrange p.1). by apply list_elem_of_fmap_2. }
  destruct (add_parts_ok ps m0 Hge) as (Hr & Hp & Ht).
  rewrite foldl_insert_union, Hp0, (right_id_L ∅ (∪)) in Hp by done.
  rewrite (list_to_map_proper ps l) in Hp by done.
  set (m := snd (SMS.add_parts m0 ps)) in *.
  assert (Htot : SMS.total_parts m = Z.of_nat n).
  { rewrite Ht. apply Z.le_antisymm.
    - apply foldl_max_le; [done|]. intros k Hk. apply Hrange in Hk. lia.
    - apply (foldl_max_ge ps (SMS.total_parts m0)).
      rewrite Hperm. fold l. rewrite Hkeys, zrange_seqZ, elem_of_seqZ. lia. }
  assert (Hsize : SMS.nparts m = Z.of_nat n).
  { unfold SMS.nparts. rewrite Hp, map_size_list_to_map by done.
    unfold l. rewrite length_zip, length_zrange. lia. }
  split; [done|].
  unfold SMS.get_concatenated_text, SMS.is_part_complete, SMS.is_multipart.
  rewrite Hsize, Htot.
  destruct (decide (n = 1%nat)) as [->|Hn2].
  - destruct ts as [|t1 [|t2 ts']]; simpl in Hlen; try lia.
    simpl. split; [done|].
    unfold l in Hperm. simpl in Hperm. apply Permutation_singleton_r in Hperm.
    subst m ps. simpl. unfold SMS.add_part. simpl.
    rewrite app_nil_r. by destruct (SMS.total_parts m0 <? 1).
  - assert (Hlt : (1 <? Z.of_nat n) = true) by (apply Z.ltb_lt; lia).
    rewrite Hlt, Z.eqb_refl. simpl. split; [done|].
    unfold SMS.join_parts. rewrite Htot, Nat2Z.id, <- Hlen.
    rewrite mapM_lookup_zrange; [simpl; apply mjoin_concat|].
    intros j Hj. rewrite Hp.
    destruct (lookup_lt_is_Some_2 ts j Hj) as [t Htj]. rewrite Htj.
    apply elem_of_list_to_map; [done|].
    apply (list_elem_of_lookup_2 _ j). unfold l.
    rewrite lookup_zip_with, lookup_zrange, Htj by lia. reflexivity.
Qed.

Lemma reassembly_order_independent_witness :
  let m0 := SMS.init None "id" "+44123456789" (pystr_of "Bro") None 0
              (Some "+44123456789") None false (Some 202) (Some 3) (Some 1) in
  let ps := [(2, pystr_of "wn "); (1, pystr_of "Bro"); (3, pystr_of "Fox")] in
  fst (SMS.add_parts m0 ps) = Ok tt /\
  SMS.is_part_complete (snd (SMS.add_parts m0 ps)) = true /\
  SMS.get_concatenated_text (snd (SMS.add_parts m0 ps)) = pystr_of "Brown Fox".
Proof.
  intros m0 ps.
  destruct (reassembly_order_independent m0 3 [pystr_of "Bro"; pystr_of "wn "; pystr_of "Fox"] ps
              eq_refl ltac:(simpl; lia) ltac:(lia) eq_refl
              ltac:(simpl; apply perm_swap)) as (H1 & H2 & H3).
  split; [exact H1|]. split; [exact H2|]. rewrite H3. reflexivity.
Defined.

(** ** Partial updates of a modem's state row *)

Lemma get_set_field_eq (r : Database.modem_row) (f : Database.field) (v : Database.sqlvalue) :
  Database.get_field (Database.set_field r f v) f = v.
Proof. by destruct f. Qed.

Lemma get_set_field_ne (r : Database.modem_row) (f f' : Database.field) (v : Database.sqlvalue) :
  f' <> f -> Database.get_field (Database.set_field r f v) f' = Database.get_field r f'.
Proof. intros Hne. destruct f, f'; done. Qed.

Lemma set_fields_notin (kw : list (Database.field * Database.sqlvalue))
    (r : Database.modem_row) (f : Database.field) :
  f ∉ kw.*1 -> Database.get_field (Database.set_fields r kw) f = Database.get_field r f.
Proof.
  revert r. induction kw as [|[f' v'] kw IH]; intros r Hf; simpl; [done|].
  apply not_elem_of_cons in Hf as [Hne Hf].
  rewrite IH by done. by apply get_set_field_ne.
Qed.

Lemma set_fields_in (kw : list (Database.field * Database.sqlvalue))
    (r : Database.modem_row) (f : Database.field) (v : Database.sqlvalue) :
  NoDup kw.*1 -> (f, v) ∈ kw -> Database.get_field (Database.set_fields r kw) f = v.
Proof.
  revert r. induction kw as [|[f' v'] kw IH]; intros r Hnd Hin; simpl.
  - by apply elem_of_nil in Hin.
  - apply NoDup_cons in Hnd as [Hf' Hnd].
    apply elem_of_cons in Hin as [Heq|Hin].
    + injection Heq as -> ->. rewrite set_fields_notin by done.
      apply get_set_field_eq.
    + by apply IH.
Qed.

(** After [update_modem_state] the row exists and holds the named values
    over the row it found, or over the column defaults for a new key (also
    when the statement raised: no named column, nothing written). *)
Lemma update_modem_state_row (d : Database.db) (now : Z) (modem_id : string)
    (kw : list (Database.field * Database.sqlvalue)) :
  exists r', Database.get_modem_state (snd (Database.update_modem_state d now modem_id kw)) modem_id
             = Some r' /\
    forall f, Database.get_field r' f =
      Database.get_field
        (Database.set_fields
           (match Database.get_modem_state d modem_id with
            | Some r0 => r0
            | None => Database.default_row now
            end) kw) f.
Proof.
  unfold Database.update_modem_state, Database.get_modem_state.
  destruct (Database.modem_state d !! modem_id) as [r0|] eqn:E.
  - destruct kw as [|p kw'].
    + simpl. rewrite E. eauto.
    + simpl. rewrite lookup_insert_eq. eexists. split; [reflexivity|].
      intros f. destruct f; reflexivity.
  - simpl. rewrite lookup_insert_eq. eauto.
Qed.

(** C7: two [update_modem_state] calls on one modem id with disjoint sets
    of named fields leave a row holding the values of both calls. Each call
    keeps every field it does not name at its value before the call (the
    column default for a row it creates), so the fields of the second call
    still hold their values from before the first call until the second
    call writes them. *)
Theorem modem_state_disjoint_updates (d : Database.db) (now1 now2 : Z)
    (modem_id : string) (kw1 kw2 : list (Database.field * Database.sqlvalue)) :
  NoDup kw1.*1 -> NoDup kw2.*1 -> (forall f, f ∈ kw1.*1 -> f ∉ kw2.*1) ->
  let before := match Database.get_modem_state d modem_id with
                | Some r0 => r0
                | None => Database.default_row now1
                end in
  let d1 := snd (Database.update_modem_state d now1 modem_id kw1) in
  let d2 := snd (Database.update_modem_state d1 now2 modem_id kw2) in
  exists row1 row2,
    Database.get_modem_state d1 modem_id = Some row1 /\
    Database.get_modem_state d2 modem_id = Some row2 /\
    (forall f v, (f, v) ∈ kw1 -> Database.get_field row2 f = v) /\
    (forall f v, (f, v) ∈ kw2 -> Database.get_field row2 f = v) /\
    (forall f, f ∉ kw1.*1 -> Database.get_field row1 f = Database.get_field before f) /\
    (forall f, f ∉ kw2.*1 -> Database.get_field row2 f = Database.get_field row1 f) /\
    (forall f, f ∈ kw2.*1 -> Database.get_field row1 f = Database.get_field before f).
Proof.
  intros Hnd1 Hnd2 Hdisj before d1 d2.
  destruct (update_modem_state_row d now1 modem_id kw1) as (row1 & H1 & Hf1).
  fold d1 in H1.
  destruct (update_modem_state_row d1 now2 modem_id kw2) as (row2 & H2 & Hf2).
  fold d2 in H2. rewrite H1 in Hf2.
  exists row1, row2. split; [done|]. split; [done|].
  assert (Hfr1 : forall f, f ∉ kw1.*1 ->
            Database.get_field row1 f = Database.get_field before f).
  { intros f Hf. rewrite Hf1. by apply set_fields_notin. }
  split; [|split; [|split; [done|split]]].
  - intros f v Hin. rewrite Hf2, set_fields_notin.
    + rewrite Hf1. by apply set_fields_in.
    + apply Hdisj. by apply (list_elem_of_fmap_2 fst) in Hin.
  - intros f v Hin. rewrite Hf2. by apply set_fields_in.
  - intros f Hf. rewrite Hf2. by apply set_fields_notin.
  - intros f Hf. apply Hfr1. intros Hf'. by apply (Hdisj f).
Qed.

Lemma modem_state_disjoint_updates_witness :
  NoDup [Database.balance; Database.currency] /\
  NoDup [Database.network; Database.is_online] /\
  exists row2,
    Database.get_modem_state
      (snd (Database.update_modem_state
         (snd (Database.update_modem_state Database.init_db 1 "00"
            [(Database.balance, Database.SqlReal 1050 100);
             (Database.currency, Database.SqlText "EUR")]))
         2 "00"
         [(Database.network, Database.SqlText "Fake Operator");
          (Database.is_online, Database.SqlInt 1)])) "00" = Some row2 /\
    Database.get_field row2 Database.balance = Database.SqlReal 1050 100 /\
    Database.get_field row2 Database.network = Database.SqlText "Fake Operator".
Proof.
  split; [repeat constructor; set_solver|]. split; [repeat constructor; set_solver|].
  destruct (modem_state_disjoint_updates Database.init_db 1 2 "00"
     [(Database.balance, Database.SqlReal 1050 100);
      (Database.currency, Database.SqlText "EUR")]
     [(Database.network, Database.SqlText "Fake Operator");
      (Database.is_online, Database.SqlInt 1)]
     ltac:(repeat constructor; set_solver) ltac:(repeat constructor; set_solver)
     ltac:(simpl; intros f Hf; set_solver))
    as (row1 & row2 & _ & H2 & Hkw1 & Hkw2 & _).
  exists row2. split; [exact H2|]. split.
  - apply Hkw1. set_solver.
  - apply Hkw2. set_solver.
Defined.

(** ** Event queries *)

Definition newer_first (a b : Database.event_row) : Prop :=
  Database.ev_timestamp b <= Database.ev_timestamp a.

Lemma insert_desc_perm (r : Database.event_row) (l : list Database.event_row) :
  Database.insert_desc r l ≡ₚ r :: l.
Proof.
  induction l as [|r' l IH]; simpl; [done|].
  destruct (Database.ev_timestamp r' <? Database.ev_timestamp r); [done|].
  rewrite IH. apply perm_swap.
Qed.

Lemma sort_desc_perm (l : list Database.event_row) : Database.sort_desc l ≡ₚ l.
Proof.
  induction l as [|r l IH]; simpl; [done|]. by rewrite insert_desc_perm, IH.
Qed.

Lemma insert_desc_sorted (r : Database.event_row) (l : list Database.event_row) :
  StronglySorted newer_first l -> StronglySorted newer_first (Database.insert_desc r l).
Proof.
  induction l as [|r' l IH]; intros Hs; simpl.
  - by repeat constructor.
  - apply StronglySorted_cons in Hs as [Hr' Hs].
    destruct (Database.ev_timestamp r' <? Database.ev_timestamp r) eqn:E.
    + apply Z.ltb_lt in E. apply StronglySorted_cons. split.
      * constructor; [unfold newer_first; lia|].
        eapply Forall_impl; [exact Hr'|]. unfold newer_first. intros x Hx. lia.
      * by apply StronglySorted_cons.
    + apply Z.ltb_ge in E. apply StronglySorted_cons. split; [|by apply IH].
      rewrite insert_desc_perm. constructor; [unfold newer_first; lia|done].
Qed.

Lemma sort_desc_sorted (l : list Database.event_row) :
  StronglySorted newer_first (Database.sort_desc l).
Proof.
  induction l as [|r l IH]; simpl; [constructor|]. by apply insert_desc_sorted.
Qed.

Lemma sql_limit_sorted (limit : Z) (l : list Database.event_row) :
  StronglySorted newer_first l -> StronglySorted newer_first (Database.sql_limit limit l).
Proof.
  intros Hs. unfold Database.sql_limit. destruct (limit <? 0); [done|].
  rewrite <- (take_drop (Z.to_nat limit) l) in Hs.
  by apply StronglySorted_app_1_l in Hs.
Qed.

Lemma sorted_map_to_dict (l : list Database.event_row) :
  StronglySorted newer_first l ->
  StronglySorted (fun a b => Database.e_timestamp b <= Database.e_timestamp a)
                 (map Database.event_to_dict l).
Proof.
  induction 1 as [|r l Hs IH Hr]; simpl; constructor; [done|].
  apply Forall_map. eapply Forall_impl; [exact Hr|]. done.
Qed.

Lemma sql_limit_subseteq (limit : Z) (l : list Database.event_row) (x : Database.event_row) :
  x ∈ Database.sql_limit limit l -> x ∈ l.
Proof.
  unfold Database.sql_limit. destruct (limit <? 0); [done|].
  intros Hx. by apply subseteq_take in Hx.
Qed.

Lemma event_matches_spec (modem_id : option string)
    (event_type : option Database.EventType) (status : option Database.EventStatus)
    (r : Database.event_row) :
  Database.event_matches modem_id event_type status r = true ->
  (forall m, modem_id = Some m -> m <> "" -> Database.ev_modem_id r = m) /\
  (forall t, event_type = Some t -> Database.ev_type r = Database.event_type_value t) /\
  (forall s, status = Some s -> Database.ev_status r = Database.event_status_value s).
Proof.
  unfold Database.event_matches. intros H.
  apply andb_prop in H as [H H3]. apply andb_prop in H as [H1 H2].
  repeat split.
  - intros m -> Hm. apply String.eqb_neq in Hm. rewrite Hm in H1.
    by apply String.eqb_eq.
  - intros t ->. by apply String.eqb_eq.
  - intros s ->. by apply String.eqb_eq.
Qed.

(** C9 (as amended): [get_events] adds a filter only for a truthy
    argument (a [modem_id] of [None] or [""] adds none; a given type or
    status always does). Its result is the matching rows sorted newest
    first, cut to the first [limit] rows when [limit >= 0] (all of them
    when [limit] is negative), each with its body passed through
    [json.loads]. Hence every returned event is a stored event satisfying
    every applied filter, the list is ordered by timestamp, most recent
    first, and it has at most [limit] entries for [limit >= 0]. *)
Theorem get_events_spec (d : Database.db) (modem_id : option string)
    (event_type : option Database.EventType) (status : option Database.EventStatus)
    (limit : Z) :
  let res := Database.get_events d modem_id event_type status limit in
  (exists l, l ≡ₚ filter (fun r => Database.event_matches modem_id event_type status r)
                         (Database.events d) /\
     StronglySorted newer_first l /\
     res = map Database.event_to_dict (Database.sql_limit limit l)) /\
  (forall e, e ∈ res -> exists r, r ∈ Database.events d /\
     e = Database.event_to_dict r /\
     Database.e_body e = Database.json_loads (Database.ev_body r) /\
     (forall m, modem_id = Some m -> m <> "" -> Database.e_modem_id e = m) /\
     (forall t, event_type = Some t -> Database.e_type e = Database.event_type_value t) /\
     (forall s, status = Some s -> Database.e_status e = Database.event_status_value s)) /\
  StronglySorted (fun a b => Database.e_timestamp b <= Database.e_timestamp a) res /\
  (0 <= limit -> (length res <= Z.to_nat limit)%nat) /\
  (limit < 0 -> length res =
     length (filter (fun r => Database.event_matches modem_id event_type status r)
                    (Database.events d))).
Proof.
  intros res.
  set (fl := filter (fun r => Database.event_matches modem_id event_type status r)
                    (Database.events d)).
  assert (Hres : res = map Database.event_to_dict
                         (Database.sql_limit limit (Database.sort_desc fl))) by reflexivity.
  split; [|split; [|split; [|split]]].
  - exists (Database.sort_desc fl). split; [apply sort_desc_perm|].
    split; [apply sort_desc_sorted|done].
  - intros e He. rewrite Hres in He.
    apply list_elem_of_fmap in He as (r & -> & Hr).
    apply sql_limit_subseteq in Hr. rewrite sort_desc_perm in Hr.
    unfold fl in Hr. apply list_elem_of_filter in Hr as [Hm Hr].
    exists r. split; [done|]. split; [done|]. split; [done|].
    apply event_matches_spec. by destruct (Database.event_matches _ _ _ r).
  - rewrite Hres. apply sorted_map_to_dict, sql_limit_sorted, sort_desc_sorted.
  - intros Hl. rewrite Hres, length_map. unfold Database.sql_limit.
    destruct (limit <? 0) eqn:E; [apply Z.ltb_lt in E; lia|].
    rewrite length_take. lia.
  - intros Hl. rewrite Hres, length_map. unfold Database.sql_limit.
    destruct (limit <? 0) eqn:E; [|apply Z.ltb_ge in E; lia].
    by rewrite sort_desc_perm.
Qed.

(** C9 fails: [modem_id=""] is falsy, so no modem filter is added and an
    event of modem ["00"] is returned although the supplied filter asks
    for modem [""]. *)
Lemma get_events_empty_modem_id_counterexample :
  map Database.e_modem_id
    (Database.get_events
       (snd (Database.add_event Database.init_db 1 Database.INCOMING_SMS "00"
               Database.JNull Database.PENDING None))
       (Some "") None None 100) = ["00"] /\
  "00" <> "".
Proof. split; [reflexivity|discriminate]. Qed.

(** ** The transport encoding of [text] *)

(** Checking a property of the integers of a range by evaluation. *)
Lemma forallb_zrange (P : Z -> bool) (a : Z) (n : nat) :
  forallb P (zrange a n) = true -> forall x, a <= x < a + Z.of_nat n -> P x = true.
Proof.
  revert a. induction n as [|n IH]; intros a H x Hx; [lia|].
  simpl in H. apply andb_prop in H as [H0 H].
  destruct (Z.eq_dec x a) as [->|Hne]; [done|].
  apply (IH (a + 1)); [done|lia].
Qed.

Lemma forallb_zrange2 (P : Z -> Z -> bool) (a n b m : nat) :
  forallb (fun x => forallb (P x) (zrange (Z.of_nat b) m)) (zrange (Z.of_nat a) n) = true ->
  forall x y, Z.of_nat a <= x < Z.of_nat a + Z.of_nat n ->
              Z.of_nat b <= y < Z.of_nat b + Z.of_nat m -> P x y = true.
Proof.
  intros H x y Hx Hy.
  apply (forallb_zrange (fun y => P x y) (Z.of_nat b) m); [|done].
  exact (forallb_zrange _ _ _ H x Hx).
Qed.

(** The alphabet: a 6-bit value maps to an ASCII character other than the
    pad, which [table_a2b_base64] maps back. *)
Lemma b2a_char_ok (x : Z) :
  0 <= x < 64 ->
  0 <= Codec.b2a_char x < 128 /\ Codec.b2a_char x <> 61 /\
  Codec.a2b_char (Codec.b2a_char x) = x.
Proof.
  intros Hx.
  pose proof (forallb_zrange
    (fun x => (0 <=? Codec.b2a_char x) && (Codec.b2a_char x <? 128) &&
              negb (Codec.b2a_char x =? 61) && (Codec.a2b_char (Codec.b2a_char x) =? x))
    0 64 ltac:(vm_compute; reflexivity) x ltac:(lia)) as H.
  apply andb_prop in H as [H H3]. apply andb_prop in H as [H H2].
  apply andb_prop in H as [H0 H1].
  apply Z.leb_le in H0. apply Z.ltb_lt in H1. apply negb_true_iff, Z.eqb_neq in H2.
  apply Z.eqb_eq in H3. lia.
Qed.

(** Bit-field bounds of a byte. *)
Lemma byte_fields (b : Z) :
  0 <= b < 256 ->
  0 <= Z.shiftr b 2 < 64 /\ 0 <= Z.land b 3 < 4 /\ 0 <= Z.shiftr b 4 < 16 /\
  0 <= Z.land b 15 < 16 /\ 0 <= Z.shiftr b 6 < 4 /\ 0 <= Z.land b 63 < 64.
Proof.
  intros Hb.
  pose proof (forallb_zrange
    (fun b => (0 <=? Z.shiftr b 2) && (Z.shiftr b 2 <? 64) &&
              (0 <=? Z.land b 3) && (Z.land b 3 <? 4) &&
              (0 <=? Z.shiftr b 4) && (Z.shiftr b 4 <? 16) &&
              (0 <=? Z.land b 15) && (Z.land b 15 <? 16) &&
              (0 <=? Z.shiftr b 6) && (Z.shiftr b 6 <? 4) &&
              (0 <=? Z.land b 63) && (Z.land b 63 <? 64))
    0 256 ltac:(vm_compute; reflexivity) b ltac:(lia)) as H.
  cbv beta in H.
  repeat match type of H with
         | (_ && _) = true => apply andb_prop in H as [H ?]
         end.
  repeat match goal with
         | Hl : (_ <=? _) = true |- _ => apply Z.leb_le in Hl
         | Hl : (_ <? _) = true |- _ => apply Z.ltb_lt in Hl
         end.
  lia.
Qed.

Lemma six_bits_hi (a h : Z) :
  0 <= a < 4 -> 0 <= h < 16 -> 0 <= Z.lor (Z.shiftl a 4) h < 64.
Proof.
  intros Ha Hh.
  pose proof (forallb_zrange2
    (fun a h => (0 <=? Z.lor (Z.shiftl a 4) h) && (Z.lor (Z.shiftl a 4) h <? 64))
    0 4 0 16 ltac:(vm_compute; reflexivity) a h ltac:(lia) ltac:(lia)) as H.
  apply andb_prop in H as [H0 H1]. apply Z.leb_le in H0. apply Z.ltb_lt in H1. lia.
Qed.

Lemma six_bits_lo (m l : Z) :
  0 <= m < 16 -> 0 <= l < 4 -> 0 <= Z.lor (Z.shiftl m 2) l < 64.
Proof.
  intros Hm Hl.
  pose proof (forallb_zrange2
    (fun m l => (0 <=? Z.lor (Z.shiftl m 2) l) && (Z.lor (Z.shiftl m 2) l <? 64))
    0 16 0 4 ltac:(vm_compute; reflexivity) m l ltac:(lia) ltac:(lia)) as H.
  apply andb_prop in H as [H0 H1]. apply Z.leb_le in H0. apply Z.ltb_lt in H1. lia.
Qed.

(** The bytes the decoder writes for each quad position give back the
    encoded bytes. *)
Lemma decode_byte1 (b1 h : Z) :
  0 <= b1 < 256 -> 0 <= h < 16 ->
  Z.land (Z.lor (Z.shiftl (Z.shiftr b1 2) 2)
                (Z.shiftr (Z.lor (Z.shiftl (Z.land b1 3) 4) h) 4)) 255 = b1.
Proof.
  intros H1 Hh. apply Z.eqb_eq.
  exact (forallb_zrange2
    (fun b1 h => Z.land (Z.lor (Z.shiftl (Z.shiftr b1 2) 2)
                (Z.shiftr (Z.lor (Z.shiftl (Z.land b1 3) 4) h) 4)) 255 =? b1)
    0 256 0 16 ltac:(vm_compute; reflexivity) b1 h ltac:(lia) ltac:(lia)).
Qed.

Lemma decode_byte3 (m b3 : Z) :
  0 <= m < 16 -> 0 <= b3 < 256 ->
  Z.land (Z.lor (Z.shiftl (Z.land (Z.lor (Z.shiftl m 2) (Z.shiftr b3 6)) 3) 6)
                (Z.land b3 63)) 255 = b3.
Proof.
  intros Hm H3. apply Z.eqb_eq.
  exact (forallb_zrange2
    (fun m b3 => Z.land (Z.lor (Z.shiftl (Z.land (Z.lor (Z.shiftl m 2) (Z.shiftr b3 6)) 3) 6)
                (Z.land b3 63)) 255 =? b3)
    0 16 0 256 ltac:(vm_compute; reflexivity) m b3 ltac:(lia) ltac:(lia)).
Qed.

Lemma decode_byte2 (a b2 l : Z) :
  0 <= a < 4 -> 0 <= b2 < 256 -> 0 <= l < 4 ->
  Z.land (Z.lor (Z.shiftl (Z.land (Z.lor (Z.shiftl a 4) (Z.shiftr b2 4)) 15) 4)
                (Z.shiftr (Z.lor (Z.shiftl (Z.land b2 15) 2) l) 2)) 255 = b2.
Proof.
  intros Ha H2 Hl. apply Z.eqb_eq.
  pose proof (forallb_zrange2
    (fun a b2 => forallb (fun l =>
       Z.land (Z.lor (Z.shiftl (Z.land (Z.lor (Z.shiftl a 4) (Z.shiftr b2 4)) 15) 4)
                (Z.shiftr (Z.lor (Z.shiftl (Z.land b2 15) 2) l) 2)) 255 =? b2)
       (zrange 0 4))
    0 4 0 256 ltac:(vm_compute; reflexivity) a b2 ltac:(lia) ltac:(lia)) as H.
  exact (forallb_zrange _ 0 4 H l ltac:(lia)).
Qed.

(** One data character at each quad position of the decoding loop. *)
Lemma a2b_data_char (x lc p : Z) (acc rest : list Z) :
  0 <= x < 64 ->
  Codec.a2b_loop 0 lc p acc (Codec.b2a_char x :: rest) = Codec.a2b_loop 1 x 0 acc rest /\
  Codec.a2b_loop 1 lc p acc (Codec.b2a_char x :: rest) =
    Codec.a2b_loop 2 (Z.land x 15) 0
      (Z.land (Z.lor (Z.shiftl lc 2) (Z.shiftr x 4)) 255 :: acc) rest /\
  Codec.a2b_loop 2 lc p acc (Codec.b2a_char x :: rest) =
    Codec.a2b_loop 3 (Z.land x 3) 0
      (Z.land (Z.lor (Z.shiftl lc 4) (Z.shiftr x 2)) 255 :: acc) rest /\
  Codec.a2b_loop 3 lc p acc (Codec.b2a_char x :: rest) =
    Codec.a2b_loop 0 0 0 (Z.land (Z.lor (Z.shiftl lc 6) x) 255 :: acc) rest.
Proof.
  intros Hx. destruct (b2a_char_ok x Hx) as (_ & Hne & Hdec).
  apply Z.eqb_neq in Hne.
  assert (H64 : (64 <=? x) = false) by (apply Z.leb_gt; lia).
  cbn [Codec.a2b_loop]. rewrite Hne, Hdec, H64. repeat split.
Qed.

(** A full 3-byte group decodes back to its bytes. *)
Lemma a2b_group (b1 b2 b3 : Z) (rest acc : list Z) :
  0 <= b1 < 256 -> 0 <= b2 < 256 -> 0 <= b3 < 256 ->
  Codec.a2b_loop 0 0 0 acc (Codec.b2a_base64 (b1 :: b2 :: b3 :: rest)) =
  Codec.a2b_loop 0 0 0 (b3 :: b2 :: b1 :: acc) (Codec.b2a_base64 rest).
Proof.
  intros H1 H2 H3.
  destruct (byte_fields b1 H1) as (F1 & A1 & _ & _ & _ & _).
  destruct (byte_fields b2 H2) as (_ & _ & S2 & L2 & _ & _).
  destruct (byte_fields b3 H3) as (_ & _ & _ & _ & S3 & L3).
  pose proof (six_bits_hi _ _ A1 S2) as X2.
  pose proof (six_bits_lo _ _ L2 S3) as X3.
  cbn [Codec.b2a_base64].
  rewrite (proj1 (a2b_data_char _ _ _ _ _ F1)).
  rewrite (proj1 (proj2 (a2b_data_char _ _ _ _ _ X2))).
  rewrite (proj1 (proj2 (proj2 (a2b_data_char _ _ _ _ _ X3)))).
  rewrite (proj2 (proj2 (proj2 (a2b_data_char _ _ _ _ _ L3)))).
  rewrite decode_byte1, decode_byte2, decode_byte3 by lia. reflexivity.
Qed.

Lemma a2b_b2a (bs acc : list Z) :
  Forall (fun b => 0 <= b < 256) bs ->
  Codec.a2b_loop 0 0 0 acc (Codec.b2a_base64 bs) = Ok (rev acc ++ bs).
Proof.
  remember (length bs) as n eqn:Hn. assert (Hle : (length bs <= n)%nat) by lia.
  clear Hn. revert bs acc Hle.
  induction n as [|n IH]; intros bs acc Hle Hbs.
  - destruct bs; simpl in Hle; [|lia]. simpl. by rewrite app_nil_r.
  - destruct bs as [|b1 [|b2 [|b3 rest]]].
    + simpl. by rewrite app_nil_r.
    + apply Forall_cons in Hbs as [H1 _].
      destruct (byte_fields b1 H1) as (F1 & A1 & _ & _ & _ & _).
      assert (X2 : 0 <= Z.shiftl (Z.land b1 3) 4 < 64).
      { pose proof (six_bits_hi _ 0 A1 ltac:(lia)) as X. by rewrite Z.lor_0_r in X. }
      cbn [Codec.b2a_base64].
      rewrite (proj1 (a2b_data_char _ _ _ _ _ F1)).
      rewrite (proj1 (proj2 (a2b_data_char _ _ _ _ _ X2))).
      pose proof (decode_byte1 b1 0 H1 ltac:(lia)) as D. rewrite Z.lor_0_r in D.
      rewrite D. cbn. reflexivity.
    + apply Forall_cons in Hbs as [H1 Hbs]. apply Forall_cons in Hbs as [H2 _].
      destruct (byte_fields b1 H1) as (F1 & A1 & _ & _ & _ & _).
      destruct (byte_fields b2 H2) as (_ & _ & S2 & L2 & _ & _).
      pose proof (six_bits_hi _ _ A1 S2) as X2.
      assert (X3 : 0 <= Z.shiftl (Z.land b2 15) 2 < 64).
      { pose proof (six_bits_lo _ 0 L2 ltac:(lia)) as X. by rewrite Z.lor_0_r in X. }
      cbn [Codec.b2a_base64].
      rewrite (proj1 (a2b_data_char _ _ _ _ _ F1)).
      rewrite (proj1 (proj2 (a2b_data_char _ _ _ _ _ X2))).
      rewrite (proj1 (proj2 (proj2 (a2b_data_char _ _ _ _ _ X3)))).
      pose proof (decode_byte2 (Z.land b1 3) b2 0 A1 H2 ltac:(lia)) as D2.
      rewrite Z.lor_0_r in D2.
      rewrite decode_byte1, D2 by lia. cbn. by rewrite <- app_assoc.
    + apply Forall_cons in Hbs as [H1 Hbs]. apply Forall_cons in Hbs as [H2 Hbs].
      apply Forall_cons in Hbs as [H3 Hbs].
      rewrite a2b_group by done. rewrite IH by (simpl in Hle; simpl; lia || done).
      simpl. by rewrite <- !app_assoc.
Qed.

Lemma b2a_base64_ascii (bs : list Z) :
  Forall (fun b => 0 <= b < 256) bs ->
  Forall (fun c => 0 <= c < 128) (Codec.b2a_base64 bs).
Proof.
  remember (length bs) as n eqn:Hn. assert (Hle : (length bs <= n)%nat) by lia.
  clear Hn. revert bs Hle.
  assert (Hc : forall x, 0 <= x < 64 -> 0 <= Codec.b2a_char x < 128)
    by (intros x Hx; apply (b2a_char_ok x Hx)).
  induction n as [|n IH]; intros bs Hle Hbs.
  - destruct bs; simpl in Hle; [constructor|lia].
  - destruct bs as [|b1 [|b2 [|b3 rest]]].
    + constructor.
    + apply Forall_cons in Hbs as [H1 _].
      destruct (byte_fields b1 H1) as (F1 & A1 & _ & _ & _ & _).
      pose proof (six_bits_hi _ 0 A1 ltac:(lia)) as X2. rewrite Z.lor_0_r in X2.
      simpl. repeat constructor; try apply Hc; lia.
    + apply Forall_cons in Hbs as [H1 Hbs]. apply Forall_cons in Hbs as [H2 _].
      destruct (byte_fields b1 H1) as (F1 & A1 & _ & _ & _ & _).
      destruct (byte_fields b2 H2) as (_ & _ & S2 & L2 & _ & _).
      pose proof (six_bits_hi _ _ A1 S2) as X2.
      pose proof (six_bits_lo _ 0 L2 ltac:(lia)) as X3. rewrite Z.lor_0_r in X3.
      simpl. repeat constructor; try apply Hc; lia.
    + apply Forall_cons in Hbs as [H1 Hbs]. apply Forall_cons in Hbs as [H2 Hbs].
      apply Forall_cons in Hbs as [H3 Hbs].
      destruct (byte_fields b1 H1) as (F1 & A1 & _ & _ & _ & _).
      destruct (byte_fields b2 H2) as (_ & _ & S2 & L2 & _ & _).
      destruct (byte_fields b3 H3) as (_ & _ & _ & _ & S3 & L3).
      pose proof (six_bits_hi _ _ A1 S2) as X2.
      pose proof (six_bits_lo _ _ L2 S3) as X3.
      simpl. repeat (apply Forall_cons; split; [apply Hc; lia|]).
      apply IH; [simpl in Hle; lia|done].
Qed.

Lemma forallb_of_Forall (P : Z -> Prop) (f : Z -> bool) (l : list Z) :
  Forall P l -> (forall x, P x -> f x = true) -> forallb f l = true.
Proof.
  intros Hl Hf. induction Hl as [|x l Hx _ IH]; simpl; [done|].
  by rewrite Hf, IH.
Qed.

(** Server encoding followed by client decoding: the text comes back
    exactly when it is 7-bit; any code point from 128 to 255 makes the
    client's [decode("ascii")] raise. *)
Lemma text_roundtrip (t : pystr) :
  Forall (fun c => 0 <= c < 256) t ->
  result_bind (Codec.server_encode_text t) Codec._decode_text =
  if forallb (fun b => b <? 128) t then Ok t else Raise UnicodeDecodeError.
Proof.
  intros Ht.
  pose proof (b2a_base64_ascii t Ht) as Ha.
  unfold Codec.server_encode_text, Codec.encode_latin1.
  rewrite (forallb_of_Forall _ _ _ Ht) by (intros x Hx; apply andb_true_iff; lia).
  simpl. unfold Codec.decode_ascii at 1.
  rewrite (forallb_of_Forall _ _ _ Ha) by (intros x Hx; apply Z.ltb_lt; lia).
  simpl. unfold Codec._decode_text, Codec.encode_ascii.
  rewrite (forallb_of_Forall _ _ _ Ha) by (intros x Hx; apply andb_true_iff; lia).
  simpl. unfold Codec.a2b_base64. rewrite a2b_b2a by done. reflexivity.
Qed.

(** C1 (code defect): [SMS.to_dict] encodes the text as latin-1 bytes, so
    every 8-bit text is encoded, but [_decode_text] decodes the bytes as
    ASCII: the round trip gives the text back only when all its code points
    are below 128, and raises [UnicodeDecodeError] for any 8-bit text with
    a code point from 128 to 255 (such as a single-byte Cyrillic or
    accented letter). *)
Theorem to_dict_text_roundtrip (m : SMS.sms) (include_modem : bool) :
  Forall (fun c => 0 <= c < 256)
    (if SMS.is_multipart m then SMS.get_concatenated_text m else SMS.text m) ->
  result_bind (SMS.to_dict m include_modem)
              (fun dct => Codec._decode_text (SMS.d_text dct)) =
  if forallb (fun b => b <? 128)
       (if SMS.is_multipart m then SMS.get_concatenated_text m else SMS.text m)
  then Ok (if SMS.is_multipart m then SMS.get_concatenated_text m else SMS.text m)
  else Raise UnicodeDecodeError.
Proof.
  intros Ht. rewrite <- text_roundtrip by done.
  unfold SMS.to_dict.
  destruct (Codec.server_encode_text _); reflexivity.
Qed.

(** The failing input: the one-character text [\xe9] ("é" in latin-1). *)
Lemma to_dict_text_roundtrip_witness :
  Forall (fun c => 0 <= c < 256) [233] /\
  result_bind
    (SMS.to_dict (SMS.init None "id" "+44123456789" [233] None 0
                   (Some "+44123456789") None false None None None) true)
    (fun dct => Codec._decode_text (SMS.d_text dct)) = Raise UnicodeDecodeError.
Proof.
  split; [repeat constructor; lia|].
  exact (to_dict_text_roundtrip
           (SMS.init None "id" "+44123456789" [233] None 0
              (Some "+44123456789") None false None None None) true
           ltac:(simpl; repeat constructor; lia)).
Defined.

(** * Further properties of the modelled code *)

(** ** Base64 on its own *)

(** X1: [base64.b64decode] inverts [base64.b64encode] on every byte
    string. *)
Theorem b64_roundtrip (bs : list Z) :
  Forall (fun b => 0 <= b < 256) bs ->
  Codec.a2b_base64 (Codec.b2a_base64 bs) = Ok bs.
Proof. intros Hbs. unfold Codec.a2b_base64. by rewrite a2b_b2a. Qed.

Lemma b64_roundtrip_witness :
  Forall (fun b => 0 <= b < 256) [0; 255; 16; 128] /\
  Codec.a2b_base64 (Codec.b2a_base64 [0; 255; 16; 128]) = Ok [0; 255; 16; 128].
Proof.
  split; [repeat constructor; lia|].
  exact (b64_roundtrip [0; 255; 16; 128] ltac:(repeat constructor; lia)).
Defined.

Lemma length_b2a_base64 (bs : list Z) :
  length (Codec.b2a_base64 bs) = (4 * ((length bs + 2) / 3))%nat.
Proof.
  enough (H : forall n (bs' : list Z), (length bs' <= n)%nat ->
    length (Codec.b2a_base64 bs') = (4 * ((length bs' + 2) / 3))%nat)
    by (apply (H (length bs)); lia).
  clear bs. intros n. induction n as [|n IH]; intros bs Hle.
  - destruct bs; simpl in Hle; [reflexivity|lia].
  - destruct bs as [|b1 [|b2 [|b3 rest]]]; [reflexivity..|].
    cbn [Codec.b2a_base64 length]. rewrite (IH rest) by (simpl in Hle; lia).
    replace (S (S (S (length rest))) + 2)%nat with (1 * 3 + (length rest + 2))%nat by lia.
    rewrite Nat.div_add_l by lia. lia.
Qed.

(** X2: the output of [base64.b64encode] on [n] bytes is ASCII text of
    [4 * ceil(n / 3)] characters. *)
Theorem b2a_base64_shape (bs : list Z) :
  Forall (fun b => 0 <= b < 256) bs ->
  length (Codec.b2a_base64 bs) = (4 * ((length bs + 2) / 3))%nat /\
  Forall (fun c => 0 <= c < 128) (Codec.b2a_base64 bs).
Proof.
  intros Hbs. split; [apply length_b2a_base64|]. by apply b2a_base64_ascii.
Qed.

Lemma b2a_base64_shape_witness :
  Forall (fun b => 0 <= b < 256) [104; 105; 33; 63] /\
  length (Codec.b2a_base64 [104; 105; 33; 63]) = 8%nat /\
  Forall (fun c => 0 <= c < 128) (Codec.b2a_base64 [104; 105; 33; 63]).
Proof.
  split; [repeat constructor; lia|].
  exact (b2a_base64_shape [104; 105; 33; 63] ltac:(repeat constructor; lia)).
Defined.

(** The characters the decoding loop reads: the pad and the alphabet. *)
Lemma a2b_loop_filter (q lc p : Z) (acc input : list Z) :
  Codec.a2b_loop q lc p acc input =
  Codec.a2b_loop q lc p acc
    (List.filter (fun c => (c =? 61) || (Codec.a2b_char c <? 64)) input).
Proof.
  revert q lc p acc. induction input as [|c rest IH]; intros q lc p acc; [done|].
  cbn [List.filter].
  destruct (c =? 61) eqn:Hpad; simpl.
  - rewrite Hpad. destruct (q <? 2); [apply IH|].
    destruct (4 <=? q + (p + 1)); [done|apply IH].
  - destruct (Codec.a2b_char c <? 64) eqn:Hv.
    + simpl. rewrite Hpad.
      assert (H64 : (64 <=? Codec.a2b_char c) = false) by (apply Z.leb_gt, Z.ltb_lt; done).
      rewrite H64. destruct (q =? 0); [apply IH|].
      destruct (q =? 1); [apply IH|]. destruct (q =? 2); apply IH.
    + assert (H64 : (64 <=? Codec.a2b_char c) = true) by (apply Z.leb_le, Z.ltb_ge; done).
      rewrite Hpad, H64. apply IH.
Qed.

(** X3: [base64.b64decode] skips every character outside the base64
    alphabet and the pad [=], so the encoding of a byte string with such
    characters (line breaks, spaces) inserted anywhere still decodes to
    the byte string. *)
Theorem b64decode_skips_foreign (bs input : list Z) :
  Forall (fun b => 0 <= b < 256) bs ->
  List.filter (fun c => (c =? 61) || (Codec.a2b_char c <? 64)) input =
    Codec.b2a_base64 bs ->
  Codec.a2b_base64 input = Ok bs.
Proof.
  intros Hbs Hf. unfold Codec.a2b_base64.
  rewrite a2b_loop_filter, Hf, a2b_b2a by done. reflexivity.
Qed.

(** ["AAEC\nAw =="] decodes to the bytes 0, 1, 2, 3. *)
Lemma b64decode_skips_foreign_witness :
  Forall (fun b => 0 <= b < 256) [0; 1; 2; 3] /\
  List.filter (fun c => (c =? 61) || (Codec.a2b_char c <? 64))
    [65; 65; 69; 67; 10; 65; 119; 32; 61; 61] = Codec.b2a_base64 [0; 1; 2; 3] /\
  Codec.a2b_base64 [65; 65; 69; 67; 10; 65; 119; 32; 61; 61] = Ok [0; 1; 2; 3].
Proof.
  split; [repeat constructor; lia|]. split; [reflexivity|].
  exact (b64decode_skips_foreign [0; 1; 2; 3] [65; 65; 69; 67; 10; 65; 119; 32; 61; 61]
           ltac:(repeat constructor; lia) eq_refl).
Defined.

(** ** Encoding failures and the client's message lists *)

(** The text [SMS.to_dict] encodes. *)
Definition dict_text (m : SMS.sms) : pystr :=
  if SMS.is_multipart m then SMS.get_concatenated_text m else SMS.text m.

Lemma to_dict_text (m : SMS.sms) (include_modem : bool) (d : SMS.sms_dict) :
  SMS.to_dict m include_modem = Ok d -> Codec.server_encode_text (dict_text m) = Ok (SMS.d_text d).
Proof.
  unfold SMS.to_dict, dict_text.
  destruct (Codec.server_encode_text _) as [te|e]; simpl; [|discriminate].
  intros H. injection H as <-. reflexivity.
Qed.

Lemma forallb_false_In (f : Z -> bool) (l : list Z) :
  forallb f l = false -> exists x, In x l /\ f x = false.
Proof.
  induction l as [|x l IH]; simpl; [discriminate|].
  destruct (f x) eqn:Hx; simpl; [|eauto].
  intros H. destruct (IH H) as (y & Hy & Hfy). eauto.
Qed.

(** X4: [SMS.to_dict] raises [UnicodeEncodeError] exactly when the text it
    encodes has a code point of 256 or more (any Cyrillic letter, as in
    [test_cyrillic_sms_to_dict]), and it raises nothing else. *)
Theorem to_dict_encode_error (m : SMS.sms) (include_modem : bool) :
  Forall (fun c => 0 <= c) (dict_text m) ->
  (SMS.to_dict m include_modem = Raise UnicodeEncodeError <->
   Exists (fun c => 256 <= c) (dict_text m)) /\
  (forall e, SMS.to_dict m include_modem = Raise e -> e = UnicodeEncodeError).
Proof.
  intros Hnn.
  assert (Hto : SMS.to_dict m include_modem =
    result_bind (Codec.server_encode_text (dict_text m)) (fun te =>
      Ok {| SMS.d_id := SMS.sms_id m; SMS.d_recipient := SMS.recipient m;
            SMS.d_text := te;
            SMS.d_sender := match SMS.sender m with Some s => s | None => "" end;
            SMS.d_timestamp := SMS.timestamp m; SMS.d_flash := SMS.flash m;
            SMS.d_is_multipart := SMS.is_multipart m;
            SMS.d_total_parts := SMS.total_parts m;
            SMS.d_received_parts := if SMS.is_multipart m then SMS.nparts m else 1;
            SMS.d_modem := if include_modem then SMS.receiving_modem m else None |}))
    by reflexivity.
  rewrite Hto. unfold Codec.server_encode_text, Codec.encode_latin1.
  destruct (forallb (fun c => (0 <=? c) && (c <? 256)) (dict_text m)) eqn:E.
  - assert (H8 : Forall (fun c => 0 <= c < 256) (dict_text m)).
    { apply List.Forall_forall. intros x Hx.
      pose proof (proj1 (forallb_forall _ _) E x Hx) as Hb.
      apply andb_true_iff in Hb as [H0 H1]. apply Z.leb_le in H0. apply Z.ltb_lt in H1. lia. }
    pose proof (b2a_base64_ascii _ H8) as Ha. simpl. unfold Codec.decode_ascii.
    rewrite (forallb_of_Forall _ _ _ Ha) by (intros x Hx; apply Z.ltb_lt; lia).
    simpl. split; [|discriminate]. split; [discriminate|].
    intros Hex. apply List.Exists_exists in Hex as (x & Hx & Hxge).
    rewrite List.Forall_forall in H8. specialize (H8 x Hx). lia.
  - simpl. split; [|intros e He; by injection He]. split; [|done]. intros _.
    apply List.Exists_exists.
    destruct (forallb_false_In _ _ E) as (x & Hx & Hb).
    rewrite List.Forall_forall in Hnn. specialize (Hnn x Hx).
    exists x. split; [done|].
    apply andb_false_iff in Hb as [Hb|Hb]; [apply Z.leb_gt in Hb|apply Z.ltb_ge in Hb]; lia.
Qed.

(** The Cyrillic text "Привет" ([U+041F U+0440 U+0438 U+0432 U+0435
    U+0442]) makes [to_dict] raise. *)
Lemma to_dict_encode_error_witness :
  Forall (fun c => 0 <= c)
    (dict_text (SMS.init None "id" "+44123456789" [1055; 1088; 1080; 1074; 1077; 1090]
                  None 0 (Some "+44123456789") (Some "00") false None None None)) /\
  SMS.to_dict (SMS.init None "id" "+44123456789" [1055; 1088; 1080; 1074; 1077; 1090]
                 None 0 (Some "+44123456789") (Some "00") false None None None) true
  = Raise UnicodeEncodeError.
Proof.
  assert (Hnn : Forall (fun c => 0 <= c)
    (dict_text (SMS.init None "id" "+44123456789" [1055; 1088; 1080; 1074; 1077; 1090]
                  None 0 (Some "+44123456789") (Some "00") false None None None)))
    by (vm_compute; repeat constructor; discriminate).
  split; [exact Hnn|].
  apply (proj2 (proj1 (to_dict_encode_error _ true Hnn))).
  vm_compute. repeat constructor. discriminate.
Defined.

Lemma decode_to_dict_text (m : SMS.sms) (include_modem : bool) (d : SMS.sms_dict) :
  Forall (fun c => 0 <= c < 256) (dict_text m) ->
  SMS.to_dict m include_modem = Ok d ->
  Codec._decode_text (SMS.d_text d) =
  if forallb (fun c => c <? 128) (dict_text m) then Ok (dict_text m)
  else Raise UnicodeDecodeError.
Proof.
  intros H8 Hd. rewrite <- text_roundtrip by done.
  by rewrite (to_dict_text m include_modem d Hd).
Qed.

(** X5: [get_sms] (and [get_all_sms], which runs the same loop) on the
    dictionaries [SMS.to_dict] made of 8-bit texts returns them with their
    texts decoded back when every text is ASCII; a single text with a code
    point from 128 to 255 makes the whole call raise [UnicodeDecodeError],
    so no message of the list reaches the caller. *)
Theorem get_sms_of_to_dict (ms : list SMS.sms) (ds : list SMS.sms_dict)
    (include_modem : bool) :
  Forall (fun m => Forall (fun c => 0 <= c < 256) (dict_text m)) ms ->
  Forall2 (fun m d => SMS.to_dict m include_modem = Ok d) ms ds ->
  RpcClient.get_sms ds = RpcClient.get_all_sms ds /\
  RpcClient.get_sms ds =
    if forallb (fun m => forallb (fun c => c <? 128) (dict_text m)) ms
    then Ok (zip_with (fun m d => RpcClient.set_d_text d (dict_text m)) ms ds)
    else Raise UnicodeDecodeError.
Proof.
  intros H8 H2. split; [reflexivity|]. unfold RpcClient.get_sms.
  induction H2 as [|m d ms ds Hd H2 IH]; [reflexivity|].
  apply Forall_cons in H8 as [Hm H8]. simpl.
  rewrite (decode_to_dict_text m include_modem d Hm Hd).
  destruct (forallb (fun c => c <? 128) (dict_text m)); simpl; [|reflexivity].
  rewrite (IH H8).
  by destruct (forallb (fun m => forallb (fun c => c <? 128) (dict_text m)) ms).
Qed.

(** Two messages, "hi" and the latin-1 letter "é": the list raises. *)
Lemma get_sms_of_to_dict_witness :
  Forall (fun m => Forall (fun c => 0 <= c < 256) (dict_text m))
    [SMS.init (Some "a") "u" "+4411" (pystr_of "hi") (Some 5) 0 (Some "+4400") None
       false None None None;
     SMS.init (Some "b") "u" "+4411" [233] (Some 6) 0 (Some "+4400") None
       false None None None] /\
  Forall2 (fun m d => SMS.to_dict m false = Ok d)
    [SMS.init (Some "a") "u" "+4411" (pystr_of "hi") (Some 5) 0 (Some "+4400") None
       false None None None;
     SMS.init (Some "b") "u" "+4411" [233] (Some 6) 0 (Some "+4400") None
       false None None None]
    [SMS.mkSMSDict "a" "+4411" (pystr_of "aGk=") "+4400" 5 false false 1 1 None;
     SMS.mkSMSDict "b" "+4411" (pystr_of "6Q==") "+4400" 6 false false 1 1 None] /\
  RpcClient.get_sms
    [SMS.mkSMSDict "a" "+4411" (pystr_of "aGk=") "+4400" 5 false false 1 1 None;
     SMS.mkSMSDict "b" "+4411" (pystr_of "6Q==") "+4400" 6 false false 1 1 None]
  = Raise UnicodeDecodeError.
Proof.
  assert (H8 : Forall (fun m => Forall (fun c => 0 <= c < 256) (dict_text m))
    [SMS.init (Some "a") "u" "+4411" (pystr_of "hi") (Some 5) 0 (Some "+4400") None
       false None None None;
     SMS.init (Some "b") "u" "+4411" [233] (Some 6) 0 (Some "+4400") None
       false None None None])
    by (vm_compute; repeat constructor; discriminate).
  assert (H2 : Forall2 (fun m d => SMS.to_dict m false = Ok d)
    [SMS.init (Some "a") "u" "+4411" (pystr_of "hi") (Some 5) 0 (Some "+4400") None
       false None None None;
     SMS.init (Some "b") "u" "+4411" [233] (Some 6) 0 (Some "+4400") None
       false None None None]
    [SMS.mkSMSDict "a" "+4411" (pystr_of "aGk=") "+4400" 5 false false 1 1 None;
     SMS.mkSMSDict "b" "+4411" (pystr_of "6Q==") "+4400" 6 false false 1 1 None])
    by (repeat constructor).
  split; [exact H8|]. split; [exact H2|].
  rewrite (proj2 (get_sms_of_to_dict _ _ false H8 H2)). reflexivity.
Defined.

(** ** The parts a message holds *)

(** Every stored part number lies between 1 and [total_parts]. *)
Definition parts_wf (m : SMS.sms) : Prop :=
  forall k t, SMS.parts m !! k = Some t -> 1 <= k <= SMS.total_parts m.

Lemma init_wf (sms_id0 : option string) (uuid recipient0 : string) (text0 : pystr)
    (timestamp0 : option Z) (now : Z) (sender0 receiving_modem0 : option string)
    (flash0 : bool) (message_ref0 total_parts0 part_number0 : option Z) :
  parts_wf (SMS.init sms_id0 uuid recipient0 text0 timestamp0 now sender0
              receiving_modem0 flash0 message_ref0 total_parts0 part_number0).
Proof. intros k t H. simpl in H. by rewrite lookup_empty in H. Qed.

Lemma add_part_wf (m : SMS.sms) (k : Z) (t : pystr) :
  parts_wf m -> parts_wf (snd (SMS.add_part m k t)).
Proof.
  intros Hwf. destruct (decide (1 <= k)) as [Hk|Hk].
  - destruct (add_part_ok m k t Hk) as (_ & Hp & Ht).
    intros k' t' H'. rewrite Hp in H'. rewrite Ht.
    apply lookup_insert_Some in H' as [[<- _]|[_ H']]; [lia|].
    specialize (Hwf k' t' H'). lia.
  - unfold SMS.add_part. replace (k <? 1) with true by (symmetry; apply Z.ltb_lt; lia).
    exact Hwf.
Qed.

Lemma add_parts_wf (ps : list (Z * pystr)) (m : SMS.sms) :
  parts_wf m -> parts_wf (snd (SMS.add_parts m ps)).
Proof.
  revert m. induction ps as [|[k t] ps IH]; intros m Hwf; simpl; [done|].
  pose proof (add_part_wf m k t Hwf) as Hwf'.
  destruct (SMS.add_part m k t) as [[u|e] m']; simpl in *; [by apply IH|done].
Qed.

(** X6: in a message made by [SMS.__init__] and any sequence of [add_part]
    calls (also one stopped by a [ValueError]) every stored part number
    lies between 1 and [total_parts]; so [received_parts] in [to_dict]
    never exceeds [total_parts] for a multipart message. *)
Theorem add_parts_keep_range (sms_id0 : option string) (uuid recipient0 : string)
    (text0 : pystr) (timestamp0 : option Z) (now : Z)
    (sender0 receiving_modem0 : option string) (flash0 : bool)
    (message_ref0 total_parts0 part_number0 : option Z) (ps : list (Z * pystr)) :
  let m := snd (SMS.add_parts
                  (SMS.init sms_id0 uuid recipient0 text0 timestamp0 now sender0
                     receiving_modem0 flash0 message_ref0 total_parts0 part_number0) ps) in
  (forall k t, SMS.parts m !! k = Some t -> 1 <= k <= SMS.total_parts m) /\
  (SMS.is_multipart m = true -> SMS.nparts m <= SMS.total_parts m).
Proof.
  intros m.
  assert (Hwf : parts_wf m) by (apply add_parts_wf, init_wf).
  split; [exact Hwf|]. intros Hmp.
  unfold SMS.is_multipart, SMS.nparts in *.
  set (keys := (map_to_list (SMS.parts m)).*1).
  assert (Hnd : NoDup keys) by apply NoDup_fst_map_to_list.
  assert (Hlen : length keys = size (SMS.parts m))
    by (unfold keys; rewrite length_fmap; apply length_map_to_list).
  destruct (decide (SMS.total_parts m < 1)) as [Hlt|Hge].
  - destruct keys as [|k keys'] eqn:Ek.
    + simpl in Hlen. rewrite <- Hlen in Hmp. simpl in Hmp.
      apply Z.ltb_lt in Hmp; lia.
    + assert (Hk : k ∈ keys) by (rewrite Ek; left).
      unfold keys in Hk. apply list_elem_of_fmap in Hk as ([k' t] & -> & Hkt).
      apply elem_of_map_to_list in Hkt. apply Hwf in Hkt. simpl in Hkt. lia.
  - assert (Hsub : keys ⊆ seqZ 1 (SMS.total_parts m)).
    { intros k Hk. unfold keys in Hk. apply list_elem_of_fmap in Hk as ([k' t] & -> & Hkt).
      apply elem_of_map_to_list in Hkt. apply Hwf in Hkt. simpl. apply elem_of_seqZ. lia. }
    pose proof (NoDup_submseteq _ _ Hnd Hsub) as Hsm.
    apply submseteq_length in Hsm. rewrite length_seqZ in Hsm. lia.
Qed.

(** X7: when every stored part number lies between 1 and [total_parts]
    (as [add_part] keeps it), a multipart message that [is_part_complete]
    holds every part from 1 to [total_parts], so [get_concatenated_text]
    joins them and never falls back to [text] on a [KeyError]. *)
Theorem complete_message_joins (m : SMS.sms) :
  parts_wf m -> SMS.is_multipart m = true -> SMS.is_part_complete m = true ->
  (forall i, 1 <= i <= SMS.total_parts m -> is_Some (SMS.parts m !! i)) /\
  exists s, SMS.join_parts m = Some s /\ SMS.get_concatenated_text m = s.
Proof.
  intros Hwf Hmp Hc.
  assert (Hn : SMS.nparts m = SMS.total_parts m).
  { unfold SMS.is_part_complete in Hc. rewrite Hmp in Hc. simpl in Hc.
    by apply Z.eqb_eq in Hc. }
  set (keys := (map_to_list (SMS.parts m)).*1).
  assert (Hnd : NoDup keys) by apply NoDup_fst_map_to_list.
  assert (Hlen : Z.of_nat (length keys) = SMS.total_parts m).
  { rewrite <- Hn. unfold SMS.nparts, keys. rewrite length_fmap, length_map_to_list. done. }
  assert (Hsub : keys ⊆ seqZ 1 (SMS.total_parts m)).
  { intros k Hk. unfold keys in Hk. apply list_elem_of_fmap in Hk as ([k' t] & -> & Hkt).
    apply elem_of_map_to_list in Hkt. apply Hwf in Hkt. simpl. apply elem_of_seqZ. lia. }
  assert (Hperm : keys ≡ₚ seqZ 1 (SMS.total_parts m)).
  { apply submseteq_length_Permutation; [by apply NoDup_submseteq|].
    rewrite length_seqZ. lia. }
  assert (Hall : forall i, 1 <= i <= SMS.total_parts m -> is_Some (SMS.parts m !! i)).
  { intros i Hi. assert (Hik : i ∈ keys) by (rewrite Hperm; apply elem_of_seqZ; lia).
    unfold keys in Hik. apply list_elem_of_fmap in Hik as ([i' t] & -> & Hit).
    apply elem_of_map_to_list in Hit. by exists t. }
  split; [exact Hall|].
  assert (Hj : is_Some (SMS.join_parts m)).
  { unfold SMS.join_parts. apply fmap_is_Some, mapM_is_Some_2.
    apply Forall_forall. intros i Hi. simpl.
    rewrite zrange_seqZ, elem_of_seqZ in Hi. apply Hall. lia. }
  destruct Hj as [s Hs]. exists s. split; [exact Hs|].
  unfold SMS.get_concatenated_text. rewrite Hmp, Hc, Hs. reflexivity.
Qed.

Lemma complete_message_joins_witness :
  let m := snd (SMS.add_parts
                  (SMS.init None "id" "+44123456789" (pystr_of "ab") None 0 None None
                     false (Some 7) (Some 2) (Some 1))
                  [(2, pystr_of "c"); (1, pystr_of "ab")]) in
  parts_wf m /\ SMS.is_multipart m = true /\ SMS.is_part_complete m = true /\
  SMS.get_concatenated_text m = pystr_of "abc".
Proof.
  intros m.
  assert (Hwf : parts_wf m) by (apply add_parts_wf, init_wf).
  split; [exact Hwf|]. split; [reflexivity|]. split; [reflexivity|].
  destruct (complete_message_joins m Hwf eq_refl eq_refl) as (_ & s & Hs & Hg).
  rewrite Hg. vm_compute in Hs. injection Hs as <-. reflexivity.
Defined.

(** X8: adding a part whose number is already stored (a retransmitted
    segment) replaces that part's text and changes neither the number of
    parts, nor [total_parts], nor whether the message is multipart or
    complete. *)
Theorem add_part_duplicate (m : SMS.sms) (k : Z) (t : pystr) :
  parts_wf m -> is_Some (SMS.parts m !! k) ->
  let m' := snd (SMS.add_part m k t) in
  fst (SMS.add_part m k t) = Ok tt /\ SMS.parts m' !! k = Some t /\
  SMS.nparts m' = SMS.nparts m /\ SMS.total_parts m' = SMS.total_parts m /\
  SMS.is_multipart m' = SMS.is_multipart m /\
  SMS.is_part_complete m' = SMS.is_part_complete m.
Proof.
  intros Hwf [t0 Ht0] m'.
  pose proof (Hwf k t0 Ht0) as Hk.
  destruct (add_part_ok m k t ltac:(lia)) as (Hr & Hp & Ht).
  fold m' in Hp, Ht.
  assert (Hsz : SMS.nparts m' = SMS.nparts m).
  { unfold SMS.nparts. rewrite Hp, map_size_insert_Some by (by exists t0). done. }
  assert (Htot : SMS.total_parts m' = SMS.total_parts m) by lia.
  split; [exact Hr|]. split; [rewrite Hp; apply lookup_insert_eq|].
  split; [exact Hsz|]. split; [exact Htot|].
  unfold SMS.is_part_complete, SMS.is_multipart. rewrite Hsz, Htot. done.
Qed.

Lemma add_part_duplicate_witness :
  let m := snd (SMS.add_parts
                  (SMS.init None "id" "+44123456789" (pystr_of "ab") None 0 None None
                     false (Some 7) (Some 3) (Some 1))
                  [(1, pystr_of "ab"); (2, pystr_of "c")]) in
  parts_wf m /\ is_Some (SMS.parts m !! 2) /\
  SMS.nparts (snd (SMS.add_part m 2 (pystr_of "d"))) = 2 /\
  SMS.is_part_complete (snd (SMS.add_part m 2 (pystr_of "d"))) = false.
Proof.
  intros m.
  assert (Hwf : parts_wf m) by (apply add_parts_wf, init_wf).
  assert (Hs : is_Some (SMS.parts m !! 2)) by (vm_compute; eauto).
  split; [exact Hwf|]. split; [exact Hs|].
  destruct (add_part_duplicate m 2 (pystr_of "d") Hwf Hs) as (_ & _ & Hn & _ & _ & Hc).
  rewrite Hn, Hc. split; reflexivity.
Defined.

(** ** The event store over a sequence of calls *)

(** X9: [update_event_status] for an id no row carries matches no row: the
    database is left exactly as it was, and no error is raised. *)
Theorem update_event_status_missing_id (d : Database.db) (now event_id : Z)
    (status : Database.EventStatus) (error : option string) :
  Forall (fun r => Database.ev_id r <> event_id) (Database.events d) ->
  Database.update_event_status d now event_id status error = d.
Proof.
  intros Hall. destruct d as [evs nid ms]. unfold Database.update_event_status. simpl in *.
  f_equal. induction Hall as [|r evs Hr Hall IH]; [reflexivity|].
  simpl. rewrite IH. unfold Database.update_event_row.
  by rewrite (proj2 (Z.eqb_neq _ _) Hr).
Qed.

Lemma update_event_status_missing_id_witness :
  Forall (fun r => Database.ev_id r <> 5)
    (Database.events (snd (Database.add_event Database.init_db 1 Database.INCOMING_SMS
                             "00" Database.JNull Database.PENDING None))) /\
  Database.update_event_status
    (snd (Database.add_event Database.init_db 1 Database.INCOMING_SMS
            "00" Database.JNull Database.PENDING None)) 2 5 Database.FAILED (Some "x")
  = snd (Database.add_event Database.init_db 1 Database.INCOMING_SMS
           "00" Database.JNull Database.PENDING None).
Proof.
  assert (H : Forall (fun r => Database.ev_id r <> 5)
    (Database.events (snd (Database.add_event Database.init_db 1 Database.INCOMING_SMS
                             "00" Database.JNull Database.PENDING None))))
    by (repeat constructor; simpl; lia).
  split; [exact H|]. exact (update_event_status_missing_id _ 2 5 Database.FAILED (Some "x") H).
Defined.

Lemma update_modem_state_keeps_events (d : Database.db) (now : Z) (modem_id : string)
    (kw : list (Database.field * Database.sqlvalue)) :
  Database.events (snd (Database.update_modem_state d now modem_id kw)) = Database.events d /\
  Database.next_event_id (snd (Database.update_modem_state d now modem_id kw)) =
    Database.next_event_id d.
Proof.
  unfold Database.update_modem_state.
  destruct (Database.modem_state d !! modem_id); [destruct kw|]; done.
Qed.

Lemma ids_update_event_status (d : Database.db) (now event_id : Z)
    (status : Database.EventStatus) (error : option string) :
  map Database.ev_id (Database.events (Database.update_event_status d now event_id status error))
  = map Database.ev_id (Database.events d).
Proof.
  simpl. rewrite map_map. apply map_ext. intros r.
  unfold Database.update_event_row. by destruct (Database.ev_id r =? event_id).
Qed.

Lemma StronglySorted_snoc {A} (R : A -> A -> Prop) (l : list A) (x : A) :
  StronglySorted R l -> Forall (fun y => R y x) l -> StronglySorted R (l ++ [x]).
Proof.
  induction 1 as [|y l Hs IH Hy]; intros Hx; simpl.
  - by repeat constructor.
  - apply Forall_cons in Hx as [Hyx Hx]. constructor; [by apply IH|].
    apply Forall_app. split; [done|]. by constructor.
Qed.

(** Row ids ascend and stay below the next AUTOINCREMENT value. *)
Definition ids_ok (d : Database.db) : Prop :=
  StronglySorted Z.lt (map Database.ev_id (Database.events d)) /\
  Forall (fun i => i < Database.next_event_id d) (map Database.ev_id (Database.events d)).

Lemma run_db_op_ids_ok (d : Database.db) (op : Database.db_op) :
  ids_ok d -> ids_ok (Database.run_db_op d op).
Proof.
  intros [Hs Hlt]. destruct op as [now t m body st err|now id st err|now m kw]; simpl.
  - unfold ids_ok. simpl. rewrite map_app. simpl. split.
    + by apply StronglySorted_snoc.
    + apply Forall_app. split; [|constructor; [lia|constructor]].
      eapply Forall_impl; [exact Hlt|]. simpl. lia.
  - unfold ids_ok. rewrite ids_update_event_status. split; done.
  - unfold ids_ok. destruct (update_modem_state_keeps_events d now m kw) as [He Hn].
    rewrite He, Hn. split; done.
Qed.

(** X10: in the database built from an empty file by any sequence of
    [add_event], [update_event_status] and [update_modem_state] calls the
    event ids ascend strictly in row order, so no two events share an id,
    and the id the next [add_event] returns is carried by no stored
    event. *)
Theorem event_ids_unique (ops : list Database.db_op) :
  let d := Database.run_db_ops Database.init_db ops in
  StronglySorted Z.lt (map Database.ev_id (Database.events d)) /\
  NoDup (map Database.ev_id (Database.events d)) /\
  (forall now t modem_id body status error,
     fst (Database.add_event d now t modem_id body status error)
       ∉ map Database.ev_id (Database.events d)).
Proof.
  intros d.
  assert (Hok : ids_ok d).
  { unfold d, Database.run_db_ops.
    assert (H0 : ids_ok Database.init_db) by (split; constructor).
    revert H0. generalize Database.init_db. induction ops as [|op ops IH]; intros d0 H0; simpl;
      [done|]. apply IH. by apply run_db_op_ids_ok. }
  destruct Hok as [Hs Hlt]. split; [done|]. split.
  - clear Hlt. induction Hs as [|i l Hs IH Hi]; constructor; [|done].
    intros Hin. rewrite Forall_forall in Hi. specialize (Hi i Hin). lia.
  - intros now t modem_id body status error Hin. simpl in Hin.
    rewrite Forall_forall in Hlt. specialize (Hlt _ Hin). lia.
Qed.

(** ** The modem state table *)

(** X11: [update_modem_state] writes only the row of its own modem: the
    events table, the next event id and every other modem's row are left
    as they were. *)
Theorem update_modem_state_isolated (d : Database.db) (now : Z) (modem_id : string)
    (kw : list (Database.field * Database.sqlvalue)) :
  let d' := snd (Database.update_modem_state d now modem_id kw) in
  Database.events d' = Database.events d /\
  Database.next_event_id d' = Database.next_event_id d /\
  (forall other, other <> modem_id ->
     Database.get_modem_state d' other = Database.get_modem_state d other).
Proof.
  intros d'. destruct (update_modem_state_keeps_events d now modem_id kw) as [He Hn].
  split; [exact He|]. split; [exact Hn|].
  intros other Hne. unfold d', Database.update_modem_state, Database.get_modem_state.
  destruct (Database.modem_state d !! modem_id); [destruct kw|]; simpl;
    try rewrite lookup_insert_ne by congruence; reflexivity.
Qed.

(** X12: [update_modem_state] with no keyword argument inserts, for a modem
    without a row, the row of column defaults ([is_online] 0, [NULL]
    elsewhere, both timestamps the current time); for a modem that has a
    row it raises [sqlite3.OperationalError] and writes nothing. *)
Theorem update_modem_state_no_fields (d : Database.db) (now : Z) (modem_id : string) :
  match Database.get_modem_state d modem_id with
  | None =>
      fst (Database.update_modem_state d now modem_id []) = Ok tt /\
      Database.get_modem_state (snd (Database.update_modem_state d now modem_id []))
        modem_id = Some (Database.default_row now)
  | Some _ =>
      Database.update_modem_state d now modem_id [] = (Raise SqliteOperationalError, d)
  end.
Proof.
  unfold Database.get_modem_state, Database.update_modem_state.
  destruct (Database.modem_state d !! modem_id); [reflexivity|].
  split; [reflexivity|]. simpl. apply lookup_insert_eq.
Qed.

Lemma set_fields_stamps (r : Database.modem_row) (kw : list (Database.field * Database.sqlvalue)) :
  Database.ms_created_at (Database.set_fields r kw) = Database.ms_created_at r /\
  Database.ms_updated_at (Database.set_fields r kw) = Database.ms_updated_at r.
Proof.
  revert r. induction kw as [|[f v] kw IH]; intros r; simpl; [done|]. apply (IH (Database.set_field r f v)).
Qed.

(** X13: after a successful [update_modem_state] the modem's row has
    [updated_at] equal to the current time and keeps the [created_at] of
    the row it found (the current time for a row it creates). *)
Theorem update_modem_state_stamps (d : Database.db) (now : Z) (modem_id : string)
    (kw : list (Database.field * Database.sqlvalue)) :
  fst (Database.update_modem_state d now modem_id kw) = Ok tt ->
  exists row,
    Database.get_modem_state (snd (Database.update_modem_state d now modem_id kw)) modem_id
      = Some row /\
    Database.ms_updated_at row = now /\
    Database.ms_created_at row =
      match Database.get_modem_state d modem_id with
      | Some r0 => Database.ms_created_at r0
      | None => now
      end.
Proof.
  unfold Database.get_modem_state, Database.update_modem_state.
  destruct (Database.modem_state d !! modem_id) as [r0|] eqn:E.
  - destruct kw as [|p kw']; simpl; [discriminate|]. intros _.
    rewrite lookup_insert_eq. eexists. split; [reflexivity|]. simpl. split; [done|].
    destruct (set_fields_stamps r0 (p :: kw')) as [Hc _]. exact Hc.
  - intros _. simpl. rewrite lookup_insert_eq. eexists. split; [reflexivity|].
    destruct (set_fields_stamps (Database.default_row now) kw) as [Hc Hu].
    rewrite Hc, Hu. done.
Qed.

Lemma update_modem_state_stamps_witness :
  fst (Database.update_modem_state
         (snd (Database.update_modem_state Database.init_db 1 "00"
                 [(Database.balance, Database.SqlInt 5)])) 9 "00"
         [(Database.is_online, Database.SqlInt 1)]) = Ok tt /\
  exists row,
    Database.get_modem_state
      (snd (Database.update_modem_state
              (snd (Database.update_modem_state Database.init_db 1 "00"
                      [(Database.balance, Database.SqlInt 5)])) 9 "00"
              [(Database.is_online, Database.SqlInt 1)])) "00" = Some row /\
    Database.ms_updated_at row = 9 /\ Database.ms_created_at row = 1.
Proof.
  split; [reflexivity|].
  destruct (update_modem_state_stamps
              (snd (Database.update_modem_state Database.init_db 1 "00"
                      [(Database.balance, Database.SqlInt 5)])) 9 "00"
              [(Database.is_online, Database.SqlInt 1)] eq_refl)
    as (row & Hr & Hu & Hc).
  exists row. split; [exact Hr|]. split; [exact Hu|]. rewrite Hc. reflexivity.
Defined.

(** ** Queries after an insertion *)

Lemma sort_desc_snoc_newest (l : list Database.event_row) (r : Database.event_row) :
  Forall (fun r' => Database.ev_timestamp r' < Database.ev_timestamp r) l ->
  Database.sort_desc (l ++ [r]) = r :: Database.sort_desc l.
Proof.
  induction l as [|a l IH]; intros Hl; [reflexivity|].
  apply Forall_cons in Hl as [Ha Hl]. simpl. rewrite IH by done. simpl.
  replace (Database.ev_timestamp r <? Database.ev_timestamp a) with false
    by (symmetry; apply Z.ltb_ge; lia).
  reflexivity.
Qed.

(** X14: when the clock has moved past every stored event, the event
    [add_event] stores is the first one [get_events] returns, for any
    limit other than 0 and any filter the event satisfies (no filter, its
    own modem id or [""], its own type, its own status); it comes back
    with the id [add_event] returned and its body through
    [json.loads(json.dumps(body))] unchanged. The body is a JSON object,
    the [Dict[str, Any]] the signature declares: its text starts with
    [{], so the [body JSON] column keeps it as text (a bare number would
    be stored as a number, which [json.loads] rejects). *)
Theorem add_event_newest_first (d : Database.db) (now : Z) (t : Database.EventType)
    (modem_id : string) (body : Database.json) (status : Database.EventStatus)
    (error : option string) (mf : option string) (tf : option Database.EventType)
    (sf : option Database.EventStatus) (limit : Z) :
  (exists kv, body = Database.JObject kv) ->
  Forall (fun r => Database.ev_timestamp r < now) (Database.events d) ->
  (mf = None \/ mf = Some "" \/ mf = Some modem_id) ->
  (tf = None \/ tf = Some t) -> (sf = None \/ sf = Some status) -> limit <> 0 ->
  exists e,
    head (Database.get_events (snd (Database.add_event d now t modem_id body status error))
            mf tf sf limit) = Some e /\
    Database.e_id e = fst (Database.add_event d now t modem_id body status error) /\
    Database.e_modem_id e = modem_id /\
    Database.e_type e = Database.event_type_value t /\
    Database.e_status e = Database.event_status_value status /\
    Database.e_body e = body /\ Database.e_error e = error /\
    Database.e_timestamp e = now.
Proof.
  intros _ Hts Hmf Htf Hsf Hlim.
  set (row := {| Database.ev_id := Database.next_event_id d;
                 Database.ev_type := Database.event_type_value t;
                 Database.ev_status := Database.event_status_value status;
                 Database.ev_modem_id := modem_id;
                 Database.ev_timestamp := now;
                 Database.ev_body := Database.json_dumps body;
                 Database.ev_error := error;
                 Database.ev_created_at := now;
                 Database.ev_updated_at := now |}).
  assert (Hm : Database.event_matches mf tf sf row = true).
  { unfold Database.event_matches. simpl.
    destruct Hmf as [-> | [-> | ->]]; destruct Htf as [-> | ->]; destruct Hsf as [-> | ->];
      simpl; rewrite ?String.eqb_refl; destruct (String.eqb modem_id ""); reflexivity. }
  set (fl := filter (fun r => Database.event_matches mf tf sf r) (Database.events d)).
  assert (Hfl : Forall (fun r => Database.ev_timestamp r < Database.ev_timestamp row) fl).
  { apply Forall_forall. intros r Hr. unfold fl in Hr.
    apply list_elem_of_filter in Hr as [_ Hr]. rewrite Forall_forall in Hts. by apply Hts. }
  assert (Hget : Database.get_events (snd (Database.add_event d now t modem_id body status error))
                   mf tf sf limit =
                 map Database.event_to_dict
                   (Database.sql_limit limit (row :: Database.sort_desc fl))).
  { unfold Database.get_events. simpl. fold row.
    rewrite filter_app. fold fl. rewrite filter_cons_True by (by rewrite Hm).
    rewrite filter_nil, sort_desc_snoc_newest by done. reflexivity. }
  rewrite Hget. unfold Database.sql_limit.
  exists (Database.event_to_dict row).
  destruct (limit <? 0) eqn:E.
  - split; [reflexivity|]. repeat split.
  - apply Z.ltb_ge in E. replace (Z.to_nat limit) with (S (Z.to_nat limit - 1)) by lia.
    split; [reflexivity|]. repeat split.
Qed.

Lemma add_event_newest_first_witness :
  Forall (fun r => Database.ev_timestamp r < 2)
    (Database.events (snd (Database.add_event Database.init_db 1 Database.INCOMING_SMS
                             "00" Database.JNull Database.PROCESSED None))) /\
  map Database.e_id
    (Database.get_events
       (snd (Database.add_event
               (snd (Database.add_event Database.init_db 1 Database.INCOMING_SMS
                       "00" Database.JNull Database.PROCESSED None))
               2 Database.OUTGOING_SMS "01"
               (Database.JObject [("text", Database.JStr "hi")]) Database.PENDING None))
       None None None 1) = [2].
Proof.
  assert (Hts : Forall (fun r => Database.ev_timestamp r < 2)
    (Database.events (snd (Database.add_event Database.init_db 1 Database.INCOMING_SMS
                             "00" Database.JNull Database.PROCESSED None))))
    by (repeat constructor; simpl; lia).
  split; [exact Hts|].
  destruct (add_event_newest_first _ 2 Database.OUTGOING_SMS "01"
              (Database.JObject [("text", Database.JStr "hi")])
              Database.PENDING None None None None 1 (ex_intro _ _ eq_refl) Hts
              (or_introl eq_refl) (or_introl eq_refl) (or_introl eq_refl) ltac:(lia))
    as (e & He & Hid & _).
  revert He. vm_compute. intros He. injection He as <-. reflexivity.
Defined.

(** ** Client loops *)

(** X15: with delivery confirmation requested, [send_sms] returns exactly
    when the server eventually answers [get_delivery_status] positively:
    while it keeps answering negatively the call does not return. Without
    confirmation it returns the id after the single [send_sms] call. *)
Theorem send_sms_returns_iff_delivered (api_token sender recipient : string) (text : pystr)
    (flash : bool) (sms_id : string) (replies : list bool) :
  (is_Some (RpcClient.send_sms api_token sender recipient text flash true sms_id replies)
   <-> true ∈ replies) /\
  RpcClient.send_sms api_token sender recipient text flash false sms_id replies =
    Some (sms_id, [RpcClient.CallSendSms api_token sender recipient text flash]).
Proof.
  split; [|reflexivity]. unfold RpcClient.send_sms. rewrite fmap_is_Some.
  induction replies as [|[] replies IH]; simpl.
  - split; [intros [? H]; discriminate|intros H; by apply elem_of_nil in H].
  - split; [intros _; left|intros _; eauto].
  - rewrite fmap_is_Some, IH. split.
    + intros H. by right.
    + intros H. apply elem_of_cons in H as [H|H]; [discriminate|done].
Qed.

(** X16: [input_phone_number] never returns an empty number: what it
    returns is the non-empty default (on an empty line) or a non-empty
    line the user typed. *)
Theorem input_phone_number_nonempty (default : string) (inputs : list string) (s : string) :
  Cli.input_phone_number default inputs = Some s ->
  s <> "" /\ ((s = default /\ default <> "") \/ s ∈ inputs).
Proof.
  induction inputs as [|x inputs IH]; simpl; [discriminate|].
  destruct (String.eqb default "") eqn:Ed; destruct (String.eqb x "") eqn:Ex; simpl.
  - intros H. destruct (IH H) as [Hs [Hd|Hin]]; split; [done|left; done|done|].
    right. by right.
  - intros H. injection H as <-. apply String.eqb_neq in Ex.
    split; [done|]. right. by left.
  - intros H. injection H as <-. apply String.eqb_neq in Ed. split; [done|by left].
  - intros H. injection H as <-. apply String.eqb_neq in Ex.
    split; [done|]. right. by left.
Qed.

Lemma input_phone_number_nonempty_witness :
  Cli.input_phone_number "" [""; ""; "+4411"] = Some "+4411" /\
  "+4411" <> "" /\ (("+4411" = "" /\ "" <> "") \/ "+4411" ∈ [""; ""; "+4411"]).
Proof.
  split; [reflexivity|].
  exact (input_phone_number_nonempty "" [""; ""; "+4411"] "+4411" eq_refl).
Defined.
